(** * The tahoma node: instruction resolver, completion tracker and input handler

    A shallow embedding of [src/nodes/tahoma.ts].

    - [generateInstructionsFromPayload] is the pure resolver (a [switch] over
      the action string).
    - [validateStatus] and [continueWhenCompleted] are the polling loop; the
      promise chain of one invocation is sequential, so it is written in a
      small state monad over a [World] that records the clock, the number of
      status probes and the observable events in the order they happen.
    - [on_input] is the body of the ['input'] listener.

    Numbers: the only numbers the file computes are results of
    [parseInt(text, 10)] and the literals 0 and 100, so a JavaScript number is
    modelled as [NaN], an integer that a double holds, negative zero or an
    infinity.  Strings: a string stands for the JavaScript string it is the
    UTF-8 encoding of. *)

From Stdlib Require Import ZArith List String Ascii Bool Lia.
Import ListNotations.
Open Scope string_scope.
Open Scope list_scope.
Open Scope Z_scope.

(* ------------------------------------------------------------------ *)
(** ** JavaScript values used by the node *)

Module JS.

(** The values [parseInt] can return: [Int z] is the double of value [z],
    [Int 0] is +0. *)
Inductive number : Type :=
| NaN
| Int (z : Z)
| NegZero
| Infinity
| NegInfinity.

(** ToBoolean on a number: [NaN], [0] and [-0] are falsy. *)
Definition truthy (n : number) : bool :=
  match n with
  | NaN => false
  | Int z => negb (z =? 0)
  | NegZero => false
  | Infinity => true
  | NegInfinity => true
  end.

(** [v || d] where [v] is a possibly undefined number. *)
Definition or_default (v : option number) (d : number) : number :=
  match v with
  | Some n => if truthy n then n else d
  | None => d
  end.

(** The white space [parseInt] skips, one byte long: TAB, LF, VT, FF, CR and
    SPACE. *)
Definition is_white_space (c : ascii) : bool :=
  let n := nat_of_ascii c in
  ((9 <=? n) && (n <=? 13))%nat || (n =? 32)%nat.

(** ... two bytes long: U+00A0. *)
Definition is_white_space2 (c1 c2 : ascii) : bool :=
  ((nat_of_ascii c1 =? 194) && (nat_of_ascii c2 =? 160))%nat.

(** ... three bytes long: U+1680, U+2000 to U+200A, U+2028, U+2029, U+202F,
    U+205F, U+3000 and U+FEFF. *)
Definition is_white_space3 (c1 c2 c3 : ascii) : bool :=
  let n1 := nat_of_ascii c1 in
  let n2 := nat_of_ascii c2 in
  let n3 := nat_of_ascii c3 in
  ((n1 =? 225) && (n2 =? 154) && (n3 =? 128)
   || (n1 =? 226) && (n2 =? 128)
      && ((128 <=? n3) && (n3 <=? 138)
          || (n3 =? 168) || (n3 =? 169) || (n3 =? 175))
   || (n1 =? 226) && (n2 =? 129) && (n3 =? 159)
   || (n1 =? 227) && (n2 =? 128) && (n3 =? 128)
   || (n1 =? 239) && (n2 =? 187) && (n3 =? 191))%nat.

(** Drops the leading white space and line terminators. *)
Fixpoint trim_start (s : string) : string :=
  match s with
  | String c1 r1 =>
      if is_white_space c1 then trim_start r1
      else
        match r1 with
        | String c2 r2 =>
            if is_white_space2 c1 c2 then trim_start r2
            else
              match r2 with
              | String c3 r3 =>
                  if is_white_space3 c1 c2 c3 then trim_start r3 else s
              | EmptyString => s
              end
        | EmptyString => s
        end
  | EmptyString => s
  end.

(** Takes a leading sign off: [true] for a minus. *)
Definition split_sign (t : string) : bool * string :=
  match t with
  | String "-"%char rest => (true, rest)
  | String "+"%char rest => (false, rest)
  | _ => (false, t)
  end.

(** Value of a radix-10 digit. *)
Definition digit_value (c : ascii) : option Z :=
  let n := nat_of_ascii c in
  if ((48 <=? n) && (n <=? 57))%nat then Some (Z.of_nat (n - 48)) else None.

(** Reads the longest prefix of decimal digits; [acc] is the value of the
    digits read so far, [None] when no digit has been read. *)
Fixpoint read_digits (s : string) (acc : option Z) : option Z :=
  match s with
  | String c rest =>
      match digit_value c with
      | Some d =>
          read_digits rest
            (Some (10 * match acc with Some a => a | None => 0 end + d))
      | None => acc
      end
  | EmptyString => acc
  end.

(** The double nearest to the integer [m >= 0], ties to the even mantissa;
    [None] when that is beyond the largest double. *)
Definition round_to_double (m : Z) : option Z :=
  if m <? 2 ^ 53 then Some m
  else
    let e := Z.log2 m - 52 in
    let q := Z.shiftr m e in
    let r := m - Z.shiftl q e in
    let half := Z.shiftl 1 (e - 1) in
    let q' := if (half <? r) || ((r =? half) && Z.odd q) then q + 1 else q in
    let v := Z.shiftl q' e in
    if v <? 2 ^ 1024 then Some v else None.

(** The number for the integer of magnitude [m] and the given sign. *)
Definition of_integer (negative : bool) (m : Z) : number :=
  if m =? 0 then (if negative then NegZero else Int 0)
  else
    match round_to_double m with
    | Some v => Int (if negative then - v else v)
    | None => if negative then NegInfinity else Infinity
    end.

(** [parseInt(s, 10)]: skip leading white space, read an optional sign,
    then the longest prefix of decimal digits; [NaN] when there is no
    digit.  With radix 10 no ["0x"] prefix is recognised.  The integer read
    becomes the nearest double, as Node.js computes it. *)
Definition parseInt (s : string) : number :=
  let '(negative, body) := split_sign (trim_start s) in
  match read_digits body None with
  | Some m => of_integer negative m
  | None => NaN
  end.

(** The text [parseInt] reads digits from, and whether a minus came before
    it. *)
Definition unsigned_body (s : string) : string :=
  snd (split_sign (trim_start s)).

Definition is_negative (s : string) : bool :=
  fst (split_sign (trim_start s)).

Definition starts_with_digit (s : string) : bool :=
  match s with
  | String c _ =>
      match digit_value c with
      | Some _ => true
      | None => false
      end
  | EmptyString => false
  end.

(** The text that spells the digits [ds], and the integer they spell. *)
Fixpoint text_of_digits (ds : list nat) : string :=
  match ds with
  | [] => EmptyString
  | d :: ds' => String (ascii_of_nat (48 + d)) (text_of_digits ds')
  end.

Definition decimal_from (a : Z) (ds : list nat) : Z :=
  fold_left (fun a d => 10 * a + Z.of_nat d) ds a.

Definition decimal_value (ds : list nat) : Z := decimal_from 0 ds.

Definition utf8_2 (a b : nat) : string :=
  String (ascii_of_nat a) (String (ascii_of_nat b) EmptyString).

Definition utf8_3 (a b c : nat) : string :=
  String (ascii_of_nat a)
    (String (ascii_of_nat b) (String (ascii_of_nat c) EmptyString)).

(** The white space and line terminators of JavaScript: U+0009 to U+000D,
    U+0020, U+00A0, U+1680, U+2000 to U+200A, U+2028, U+2029, U+202F,
    U+205F, U+3000 and U+FEFF. *)
Definition white_space : list string :=
  map (fun n => String (ascii_of_nat n) EmptyString) [9; 10; 11; 12; 13; 32]%nat
  ++ [utf8_2 194 160; utf8_3 225 154 128]
  ++ map (utf8_3 226 128)
       [128; 129; 130; 131; 132; 133; 134; 135; 136; 137; 138;
        168; 169; 175]%nat
  ++ [utf8_3 226 129 159; utf8_3 227 128 128; utf8_3 239 187 191].

(** A text that spells an integer and nothing else: an optional sign, then
    digits only, at least one. *)
Fixpoint all_digits (s : string) : bool :=
  match s with
  | String c rest =>
      match digit_value c with
      | Some _ => all_digits rest
      | None => false
      end
  | EmptyString => true
  end.

Definition is_integer_text (s : string) : bool :=
  let body := snd (split_sign s) in
  starts_with_digit body && all_digits body.

End JS.

Import JS.

(* ------------------------------------------------------------------ *)
(** ** Data model *)

Record ITahomaControlPayload : Type := {
  action : string;
  orientation : string;
  position : string;
  lowspeed : bool;
  repetitions : string
}.

Record ITahomaControlMessage : Type := {
  _msgid : string;
  payload : ITahomaControlPayload
}.

Inductive TahomaCommands : Type :=
| OPEN
| CLOSE
| ROTATION
| STOP
| SET_CLOSURE
| SET_CLOSURE_AND_ORIENTATION
| WINK.

(** The string value of each member of the enum. *)
Definition command_value (c : TahomaCommands) : string :=
  match c with
  | OPEN => "open"
  | CLOSE => "close"
  | ROTATION => "rotation"
  | STOP => "stop"
  | SET_CLOSURE => "setClosure"
  | SET_CLOSURE_AND_ORIENTATION => "setClosureAndOrientation"
  | WINK => "wink"
  end.

Record ExpectedState : Type := {
  es_open : option bool;
  es_position : option number;
  es_orientation : option number;
  es_repetitions : option number
}.

Record Labels : Type := {
  done : string;
  progress : string
}.

Record ITahomaControlInstructions : Type := {
  command : TahomaCommands;
  parameters : option (list number);
  expectedState : option ExpectedState;
  labels : Labels
}.

Record ICommand : Type := {
  name : string;
  cmd_parameters : list number
}.

Record ICommandExecutionResponse : Type := {
  execId : string
}.

(* ------------------------------------------------------------------ *)
(** ** The instruction resolver *)

Definition generateInstructionsFromPayload (payload : ITahomaControlPayload)
  : option ITahomaControlInstructions :=
  (let a := action payload in
  if a =? "open" then
    Some {| command := OPEN;
            expectedState :=
              Some {| es_open := Some true; es_position := Some (Int 0);
                      es_orientation := None; es_repetitions := None |};
            labels := {| done := "Open"; progress := "Opening..." |};
            parameters := None |}
  else if a =? "close" then
    Some {| command := CLOSE;
            expectedState :=
              Some {| es_open := Some false; es_position := Some (Int 100);
                      es_orientation := None; es_repetitions := None |};
            labels := {| done := "Closed"; progress := "Closing..." |};
            parameters := None |}
  else if a =? "customPosition" then
    Some {| command := SET_CLOSURE;
            expectedState :=
              Some {| es_open := Some true;
                      es_position := Some (parseInt (position payload));
                      es_orientation := None; es_repetitions := None |};
            labels := {| done := "Set to " ++ position payload;
                         progress := "Setting to " ++ position payload |};
            parameters := Some [parseInt (position payload)] |}
  else if (a =? "customRotation") || (a =? "customOrientation") then
    Some {| command := ROTATION;
            expectedState :=
              Some {| es_open := None; es_position := None;
                      es_orientation := Some (parseInt (orientation payload));
                      es_repetitions := None |};
            labels := {| done := "Rotated to " ++ orientation payload;
                         progress := "Rotating to " ++ orientation payload
                                       ++ "..." |};
            parameters := Some [parseInt (orientation payload)] |}
  else if a =? "customClosureAndOrientation" then
    Some {| command := SET_CLOSURE_AND_ORIENTATION;
            expectedState :=
              Some {| es_open := None;
                      es_position := Some (parseInt (position payload));
                      es_orientation := Some (parseInt (orientation payload));
                      es_repetitions := None |};
            labels := {| done := "Set to position:" ++ position payload
                                   ++ ", orientation:" ++ orientation payload;
                         progress := "Moving to position:" ++ position payload
                                       ++ ", orientation:"
                                       ++ orientation payload ++ "..." |};
            parameters := Some [parseInt (position payload);
                                parseInt (orientation payload)] |}
  else if a =? "stop" then
    Some {| command := STOP;
            expectedState := None;
            labels := {| done := "Stopped"; progress := "Stopping..." |};
            parameters := None |}
  else if a =? "wink" then
    Some {| command := WINK;
            expectedState :=
              Some {| es_open := None; es_position := None;
                      es_orientation := None;
                      es_repetitions := Some (parseInt (repetitions payload)) |};
            labels := {| done := "Stopped";
                         progress := "Winking " ++ repetitions payload
                                       ++ " time(s)" |};
            parameters := Some [parseInt (repetitions payload)] |}
  else None)%string.

(* ------------------------------------------------------------------ *)
(** ** Collaborators: the gateway client and the host runtime *)

(** How the promise of a gateway call ends. *)
Inductive Reply (A : Type) : Type :=
| Resolves (a : A)
| Rejects (reason : string).
Arguments Resolves {A} a.
Arguments Rejects {A} reason.

(** A pending execution as the gateway reports it; its shape is not
    inspected by the node. *)
Record Status : Type := { state : string }.

(** What the node cannot decide by itself: the answers of the gateway
    client ([SomfyApi], built afresh for each call) and how late a timer
    fires.  The status probe made when [k] probes have been made before it
    is answered by [getStatusForExecutionId k]; the timer armed before it
    fires [lateness k] ms after its delay has elapsed.  The time the gateway
    takes to answer is not counted: it could only add to the clock. *)
Record Env : Type := {
  execute : string -> ICommand -> Reply ICommandExecutionResponse;
  getStatusForExecutionId : nat -> string -> Reply (option Status);
  lateness : nat -> nat
}.

(** The node object: [this['device']], [this['tahomabox']], [this['name']]. *)
Record Node : Type := {
  device : string;
  tahomabox : string;
  node_name : string
}.

(** What an invocation does to the outside, in the order it happens. *)
Inductive Event : Type :=
| EvStatus (fill shape text : string)
| EvExecute (dev : string) (cmd : ICommand)
| EvSetTimeout (delay : Z)
| EvGetStatus (id : string)
| EvSend (msg : ITahomaControlMessage)
| EvUnhandledRejection (reason : string).

Record World : Type := {
  now : Z;            (* clock, in ms *)
  probes : nat;       (* status probes made so far *)
  log : list Event    (* events so far, oldest first *)
}.

Definition emit (e : Event) (w : World) : World :=
  {| now := now w; probes := probes w; log := log w ++ [e] |}.

(* ------------------------------------------------------------------ *)
(** ** Promise chains as a state monad *)

(** How a promise chain stands when it is observed. *)
Inductive Settled (A : Type) : Type :=
| Fulfilled (a : A)
| Rejected (reason : string)
| NeverSettles        (* its [resolve] will never be called *)
| StillPolling.       (* the observation ended before the chain did *)
Arguments Fulfilled {A} a.
Arguments Rejected {A} reason.
Arguments NeverSettles {A}.
Arguments StillPolling {A}.

Definition Async (A : Type) : Type := World -> Settled A * World.

Definition ret {A} (a : A) : Async A := fun w => (Fulfilled a, w).

(** [p.then(k)] and [await]: [k] runs only when [p] is fulfilled. *)
Definition bind {A B} (p : Async A) (k : A -> Async B) : Async B :=
  fun w =>
    match p w with
    | (Fulfilled a, w') => k a w'
    | (Rejected r, w') => (Rejected r, w')
    | (NeverSettles, w') => (NeverSettles, w')
    | (StillPolling, w') => (StillPolling, w')
    end.

Declare Scope async_scope.
Delimit Scope async_scope with async.
Notation "x <- p ;; k" := (bind p (fun x => k))
  (at level 61, p at next level, right associativity) : async_scope.
Notation "p ;; k" := (bind p (fun _ => k))
  (at level 61, right associativity) : async_scope.

Definition tell (e : Event) : Async unit := fun w => (Fulfilled tt, emit e w).

(** [setTimeout(callback, delay)]: the callback runs [delay] ms later, or
    later still. *)
Definition setTimeout (env : Env) (delay : Z) : Async unit :=
  fun w =>
    (Fulfilled tt,
     {| now := now w + delay + Z.of_nat (lateness env (probes w));
        probes := probes w;
        log := log w ++ [EvSetTimeout delay] |}).

(** [somfyClient.getStatusForExecutionId(execId)]. *)
Definition call_getStatus (env : Env) (id : string)
  : Async (option Status) :=
  fun w =>
    let w' := {| now := now w; probes := S (probes w);
                 log := log w ++ [EvGetStatus id] |} in
    match getStatusForExecutionId env (probes w) id with
    | Resolves st => (Fulfilled st, w')
    | Rejects r => (Rejected r, w')
    end.

(** [somfyApiClient.execute(device, command)]. *)
Definition call_execute (env : Env) (dev : string) (cmd : ICommand)
  : Async ICommandExecutionResponse :=
  fun w =>
    let w' := emit (EvExecute dev cmd) w in
    match execute env dev cmd with
    | Resolves resp => (Fulfilled resp, w')
    | Rejects r => (Rejected r, w')
    end.

(** A promise nobody chains on: its rejection reaches the runtime as an
    unhandled rejection, and whoever waits for the [resolve] call at its end
    waits for ever. *)
Definition unhandled {A} (p : Async A) : Async A :=
  fun w =>
    match p w with
    | (Rejected r, w') => (NeverSettles, emit (EvUnhandledRejection r) w')
    | other => other
    end.

(* ------------------------------------------------------------------ *)
(** ** The completion tracker *)

Definition STATE_VALIDATOR_POLLING_DELAY : Z := 2500.

(** [status === null] *)
Definition is_null (st : option Status) : bool :=
  match st with
  | None => true
  | Some _ => false
  end.

(** The promise resolves with [status === null] from inside the timer
    callback; the callback is an async function whose own promise is
    dropped. *)
Definition validateStatus (env : Env) (id : string) : Async bool :=
  (setTimeout env STATE_VALIDATOR_POLLING_DELAY ;;
   unhandled (status <- call_getStatus env id ;;
              ret (is_null status)))%async.

(** The recursion of the source has no bound; [fuel] bounds how many rounds
    are observed, and a chain that is still polling when it runs out reports
    [StillPolling]. *)
Fixpoint continueWhenCompleted (env : Env) (fuel : nat) (id : string)
  : Async unit :=
  match fuel with
  | O => fun w => (StillPolling, w)
  | S fuel' =>
      (isFinished <- validateStatus env id ;;
       if negb isFinished then continueWhenCompleted env fuel' id
       else ret tt)%async
  end.

(* ------------------------------------------------------------------ *)
(** ** The input handler *)

(** Lines 80-89: the command sent to the gateway.  Reading [.position] of an
    undefined [expectedState] throws a [TypeError]. *)
Definition wire_command (p : ITahomaControlPayload)
    (instructions : ITahomaControlInstructions) : string + ICommand :=
  let command0 :=
    {| name := command_value (command instructions);
       cmd_parameters := match parameters instructions with
                         | Some ps => ps
                         | None => []
                         end |} in
  if lowspeed p && negb (command_value (command instructions) =? "stop")%string
  then
    match expectedState instructions with
    | None => inl "TypeError"
    | Some es =>
        let targetPosition := or_default (es_position es) (Int 0) in
        inr {| name := "position_low_speed";
               cmd_parameters := [targetPosition] |}
    end
  else inr command0.

(** How one invocation of the listener ends. *)
Inductive Outcome : Type :=
| Ignored                       (* the listener returned at once *)
| Threw (err : string)          (* the listener threw *)
| Completed                     (* terminal status shown, message sent *)
| Aborted                       (* a gateway call was rejected *)
| Unfinished.                   (* still polling when observation ended *)

(** The chain started at lines 91-117. *)
Definition chain (env : Env) (fuel : nat) (node : Node)
    (msg : ITahomaControlMessage)
    (instructions : ITahomaControlInstructions) (cmd : ICommand)
  : Async unit :=
  (tell (EvStatus "yellow" "dot" (progress (labels instructions))) ;;
   unhandled
     (commandExecutionResponse <- call_execute env (device node) cmd ;;
      match expectedState instructions with
      | None =>
          tell (EvStatus "grey" "dot" "Unknown") ;;
          tell (EvSend msg)
      | Some _ =>
          continueWhenCompleted env fuel (execId commandExecutionResponse) ;;
          tell (EvStatus "green" "dot" (done (labels instructions))) ;;
          tell (EvSend msg)
      end))%async.

Definition on_input (env : Env) (fuel : nat) (node : Node)
    (msg : ITahomaControlMessage) (w : World) : Outcome * World :=
  match generateInstructionsFromPayload (payload msg) with
  | None => (Ignored, w)
  | Some instructions =>
      match wire_command (payload msg) instructions with
      | inl err => (Threw err, w)
      | inr cmd =>
          match chain env fuel node msg instructions cmd w with
          | (Fulfilled _, w') => (Completed, w')
          | (StillPolling, w') => (Unfinished, w')
          | (_, w') => (Aborted, w')
          end
      end
  end.

(* ------------------------------------------------------------------ *)
(** ** Vocabulary of the properties *)

(** The actions of the resolver's [switch]. *)
Definition known_actions : list string :=
  ["open"; "close"; "customPosition"; "customRotation"; "customOrientation";
   "customClosureAndOrientation"; "stop"; "wink"].

(** One round of the tracker: arm the timer, then probe. *)
Definition round (id : string) : list Event :=
  [EvSetTimeout STATE_VALIDATOR_POLLING_DELAY; EvGetStatus id].

Fixpoint rounds (id : string) (n : nat) : list Event :=
  match n with
  | O => []
  | S n' => round id ++ rounds id n'
  end.

(** The world after one round, and after [n] rounds. *)
Definition after_round (env : Env) (id : string) (w : World) : World :=
  {| now := now w + STATE_VALIDATOR_POLLING_DELAY
            + Z.of_nat (lateness env (probes w));
     probes := S (probes w);
     log := log w ++ round id |}.

Fixpoint after_rounds (env : Env) (id : string) (n : nat) (w : World)
  : World :=
  match n with
  | O => w
  | S n' => after_rounds env id n' (after_round env id w)
  end.

(** The gateway still reports the execution at probe [k]. *)
Definition pending_at (env : Env) (id : string) (k : nat) : Prop :=
  exists st, getStatusForExecutionId env k id = Resolves (Some st).

(** ... and at each of the [n] probes from probe [k0] on. *)
Definition pending_for (env : Env) (id : string) (k0 n : nat) : Prop :=
  forall k, (k < n)%nat -> pending_at env id (k0 + k).

Definition is_send (e : Event) : bool :=
  match e with
  | EvSend _ => true
  | _ => false
  end.

Definition is_status (e : Event) : bool :=
  match e with
  | EvStatus _ _ _ => true
  | _ => false
  end.

Definition is_probe (e : Event) : bool :=
  match e with
  | EvGetStatus _ => true
  | _ => false
  end.

Definition count (f : Event -> bool) (l : list Event) : nat :=
  List.length (List.filter f l).

(** The status shown while the command runs, and the one shown last. *)
Definition progress_status (i : ITahomaControlInstructions) : Event :=
  EvStatus "yellow" "dot" (progress (labels i)).

Definition terminal_status (i : ITahomaControlInstructions) : Event :=
  match expectedState i with
  | None => EvStatus "grey" "dot" "Unknown"
  | Some _ => EvStatus "green" "dot" (done (labels i))
  end.

(** The three ways a run of the tracker can stand when it has been observed
    for [fuel] rounds: resolved at probe [n], cut short by a failed probe, or
    still polling. *)
Inductive tracker_run (env : Env) (id : string) (fuel : nat) (w : World)
  : Settled unit * World -> Prop :=
| run_resolved (n : nat) :
    (n < fuel)%nat ->
    pending_for env id (probes w) n ->
    getStatusForExecutionId env (probes w + n) id = Resolves None ->
    tracker_run env id fuel w
      (Fulfilled tt, after_rounds env id (S n) w)
| run_aborted (n : nat) (r : string) :
    (n < fuel)%nat ->
    pending_for env id (probes w) n ->
    getStatusForExecutionId env (probes w + n) id = Rejects r ->
    tracker_run env id fuel w
      (NeverSettles,
       emit (EvUnhandledRejection r) (after_rounds env id (S n) w))
| run_polling :
    pending_for env id (probes w) fuel ->
    tracker_run env id fuel w (StillPolling, after_rounds env id fuel w).

(** The world once the progress status is shown and the command is issued. *)
Definition started (node : Node) (i : ITahomaControlInstructions)
    (cmd : ICommand) (w : World) : World :=
  emit (EvExecute (device node) cmd) (emit (progress_status i) w).

(** The command the handler builds before the low-speed test. *)
Definition base_command (i : ITahomaControlInstructions) : ICommand :=
  {| name := command_value (command i);
     cmd_parameters := match parameters i with
                       | Some ps => ps
                       | None => []
                       end |}.

(** The position an instruction aims at: the one its expected state holds,
    0 when it holds none. *)
Definition target_position (i : ITahomaControlInstructions) : number :=
  match expectedState i with
  | Some es =>
      match es_position es with
      | Some n => n
      | None => Int 0
      end
  | None => Int 0
  end.

(** What the expected state of an instruction holds, field by field;
    undefined when there is no expected state. *)
Definition expected_position (i : ITahomaControlInstructions)
  : option number :=
  match expectedState i with
  | Some es => es_position es
  | None => None
  end.

Definition expected_orientation (i : ITahomaControlInstructions)
  : option number :=
  match expectedState i with
  | Some es => es_orientation es
  | None => None
  end.

Definition expected_repetitions (i : ITahomaControlInstructions)
  : option number :=
  match expectedState i with
  | Some es => es_repetitions es
  | None => None
  end.

(** The command that goes out for [stop]. *)
Definition stop_command : ICommand :=
  {| name := "stop"; cmd_parameters := [] |}.

Definition with_lowspeed (b : bool) (p : ITahomaControlPayload)
  : ITahomaControlPayload :=
  {| action := action p; orientation := orientation p;
     position := position p; lowspeed := b; repetitions := repetitions p |}.

Definition is_execute (e : Event) : bool :=
  match e with
  | EvExecute _ _ => true
  | _ => false
  end.

(** The numbers an expected state holds, in the order position, orientation,
    repetitions. *)
Definition numbers_of_state (es : ExpectedState) : list number :=
  match es_position es with Some n => [n] | None => [] end
  ++ match es_orientation es with Some n => [n] | None => [] end
  ++ match es_repetitions es with Some n => [n] | None => [] end.

(** Two payloads agree on what the branch of their action reads. *)
Definition same_read_fields (p q : ITahomaControlPayload) : Prop :=
  action p = action q
  /\ (action p = "customPosition"
      \/ action p = "customClosureAndOrientation" ->
      position p = position q)
  /\ (action p = "customRotation" \/ action p = "customOrientation"
      \/ action p = "customClosureAndOrientation" ->
      orientation p = orientation q)
  /\ (action p = "wink" -> repetitions p = repetitions q).

(* ------------------------------------------------------------------ *)
(** ** Sample data *)

Module Sample.

Definition w0 : World := {| now := 0; probes := 0; log := [] |}.

Definition node : Node :=
  {| device := "io://1234/5678"; tahomabox := "box"; node_name := "blind" |}.

Definition mk_payload (a pos ori rep : string) (slow : bool)
  : ITahomaControlPayload :=
  {| action := a; orientation := ori; position := pos;
     lowspeed := slow; repetitions := rep |}.

Definition mk_msg (p : ITahomaControlPayload) : ITahomaControlMessage :=
  {| _msgid := "a1b2"; payload := p |}.

Definition running : Status := {| state := "IN_PROGRESS" |}.

(** Accepts every command; the execution is pending at the first two
    probes and gone at the third. *)
Definition env_two_then_absent : Env :=
  {| execute := fun _ _ => Resolves {| execId := "exec-1" |};
     getStatusForExecutionId :=
       fun k _ => if (k <? 2)%nat then Resolves (Some running)
                  else Resolves None;
     lateness := fun k => (3 * k)%nat |}.

(** The gateway refuses the command. *)
Definition env_execute_fails : Env :=
  {| execute := fun _ _ => Rejects "401 Unauthorized";
     getStatusForExecutionId := fun _ _ => Resolves None;
     lateness := fun _ => O |}.

(** The second probe fails. *)
Definition env_probe_fails : Env :=
  {| execute := fun _ _ => Resolves {| execId := "exec-1" |};
     getStatusForExecutionId :=
       fun k _ => if (k <? 1)%nat then Resolves (Some running)
                  else Rejects "ECONNRESET";
     lateness := fun _ => O |}.

(** Low speed asked for a position that is no number. *)
Definition slow_malformed : ITahomaControlPayload :=
  mk_payload "customPosition" "abc" "" "" true.

Definition open_msg : ITahomaControlMessage :=
  mk_msg (mk_payload "open" "" "" "" false).

Definition wink_msg : ITahomaControlMessage :=
  mk_msg (mk_payload "wink" "" "" "2" false).

End Sample.

(* ------------------------------------------------------------------ *)
(** ** The tracker, round by round *)

Lemma after_rounds_probes env id n : forall w,
  probes (after_rounds env id n w) = (probes w + n)%nat.
Proof.
  induction n as [|n IH]; intros w; simpl.
  - lia.
  - rewrite IH. simpl. lia.
Qed.

Lemma after_rounds_log env id n : forall w,
  log (after_rounds env id n w) = log w ++ rounds id n.
Proof.
  induction n as [|n IH]; intros w; simpl.
  - now rewrite app_nil_r.
  - rewrite IH. simpl. now rewrite <- app_assoc.
Qed.

Lemma after_rounds_now env id n : forall w,
  now w + Z.of_nat n * STATE_VALIDATOR_POLLING_DELAY
  <= now (after_rounds env id n w).
Proof.
  induction n as [|n IH]; intros w.
  - simpl. lia.
  - cbn [after_rounds]. specialize (IH (after_round env id w)).
    unfold after_round in IH at 1. cbn [now] in IH.
    unfold STATE_VALIDATOR_POLLING_DELAY in *. lia.
Qed.

Lemma after_rounds_succ env id n : forall w,
  after_rounds env id (S n) w = after_round env id (after_rounds env id n w).
Proof.
  induction n as [|n IH]; intros w.
  - reflexivity.
  - cbn [after_rounds] in *. now rewrite <- IH.
Qed.

(** One round when the probe answers with a value. *)
Lemma validateStatus_answer env id w st :
  getStatusForExecutionId env (probes w) id = Resolves st ->
  validateStatus env id w = (Fulfilled (is_null st), after_round env id w).
Proof.
  intros H. unfold validateStatus, bind, setTimeout, unhandled, call_getStatus, ret.
  cbn [probes now log]. rewrite H. unfold after_round, round.
  now rewrite <- app_assoc.
Qed.

(** One round when the probe fails. *)
Lemma validateStatus_failure env id w r :
  getStatusForExecutionId env (probes w) id = Rejects r ->
  validateStatus env id w
  = (NeverSettles, emit (EvUnhandledRejection r) (after_round env id w)).
Proof.
  intros H. unfold validateStatus, bind, setTimeout, unhandled, call_getStatus, ret.
  cbn [probes now log]. rewrite H. unfold after_round, round, emit. cbn [probes now log].
  now rewrite <- !app_assoc.
Qed.

(** While the execution is pending the tracker goes round again. *)
Lemma tracker_skips_pending env id n : forall fuel w,
  pending_for env id (probes w) n ->
  continueWhenCompleted env (n + fuel) id w
  = continueWhenCompleted env fuel id (after_rounds env id n w).
Proof.
  induction n as [|n IH]; intros fuel w Hp.
  - reflexivity.
  - destruct (Hp O ltac:(lia)) as [st Hst]. rewrite Nat.add_0_r in Hst.
    cbn [Nat.add continueWhenCompleted after_rounds].
    unfold bind at 1. rewrite (validateStatus_answer _ _ _ _ Hst).
    cbn [is_null negb]. apply IH.
    intros k Hk. cbn [after_round probes].
    replace (S (probes w) + k)%nat with (probes w + S k)%nat by lia.
    apply Hp. lia.
Qed.

Lemma pending_for_shift env id k0 n :
  pending_at env id k0 ->
  pending_for env id (S k0) n ->
  pending_for env id k0 (S n).
Proof.
  intros H0 Hn [|k] Hk.
  - now rewrite Nat.add_0_r.
  - replace (k0 + S k)%nat with (S k0 + k)%nat by lia. apply Hn. lia.
Qed.

Lemma tracker_resolves env id n fuel w :
  pending_for env id (probes w) n ->
  getStatusForExecutionId env (probes w + n) id = Resolves None ->
  (n < fuel)%nat ->
  continueWhenCompleted env fuel id w
  = (Fulfilled tt, after_rounds env id (S n) w).
Proof.
  intros Hp Hn Hlt.
  replace fuel with (n + S (fuel - S n))%nat by lia.
  rewrite (tracker_skips_pending _ _ _ _ _ Hp).
  cbn [continueWhenCompleted]. unfold bind at 1.
  rewrite <- after_rounds_probes with (env := env) (id := id) in Hn.
  rewrite (validateStatus_answer _ _ _ _ Hn). cbn [is_null negb].
  now rewrite after_rounds_succ.
Qed.

Lemma tracker_aborts env id n r fuel w :
  pending_for env id (probes w) n ->
  getStatusForExecutionId env (probes w + n) id = Rejects r ->
  (n < fuel)%nat ->
  continueWhenCompleted env fuel id w
  = (NeverSettles,
     emit (EvUnhandledRejection r) (after_rounds env id (S n) w)).
Proof.
  intros Hp Hn Hlt.
  replace fuel with (n + S (fuel - S n))%nat by lia.
  rewrite (tracker_skips_pending _ _ _ _ _ Hp).
  cbn [continueWhenCompleted]. unfold bind at 1.
  rewrite <- after_rounds_probes with (env := env) (id := id) in Hn.
  rewrite (validateStatus_failure _ _ _ _ Hn).
  now rewrite after_rounds_succ.
Qed.

Lemma tracker_keeps_polling env id fuel w :
  pending_for env id (probes w) fuel ->
  continueWhenCompleted env fuel id w
  = (StillPolling, after_rounds env id fuel w).
Proof.
  intros Hp. rewrite <- (Nat.add_0_r fuel) at 1.
  now rewrite (tracker_skips_pending _ _ _ _ _ Hp).
Qed.

(** Every run of the tracker is one of the three. *)
Lemma tracker_cases env id : forall fuel w,
  tracker_run env id fuel w (continueWhenCompleted env fuel id w).
Proof.
  induction fuel as [|fuel IH]; intros w.
  - apply run_polling. intros k Hk. lia.
  - destruct (getStatusForExecutionId env (probes w) id) as [[st|]|r] eqn:E.
    + assert (Hp : pending_at env id (probes w)) by (now exists st).
      change (S fuel) with (1 + fuel)%nat.
      rewrite (tracker_skips_pending env id 1 fuel w).
      2:{ intros k Hk. replace k with O by lia. now rewrite Nat.add_0_r. }
      cbn [after_rounds].
      destruct (IH (after_round env id w)) as [n Hlt Hn Ha|n r Hlt Hn Ha|Hn];
        cbn [after_round probes] in *.
      * apply (run_resolved env id (1 + fuel) w (S n)); [lia| |].
        -- now apply pending_for_shift.
        -- now replace (probes w + S n)%nat with (S (probes w) + n)%nat by lia.
      * apply (run_aborted env id (1 + fuel) w (S n)); [lia| |].
        -- now apply pending_for_shift.
        -- now replace (probes w + S n)%nat with (S (probes w) + n)%nat by lia.
      * apply (run_polling env id (1 + fuel) w). now apply pending_for_shift.
    + rewrite (tracker_resolves env id 0 (S fuel) w); [|intros k Hk; lia| |lia].
      * apply run_resolved; [lia|intros k Hk; lia|now rewrite Nat.add_0_r].
      * now rewrite Nat.add_0_r.
    + rewrite (tracker_aborts env id 0 r (S fuel) w); [|intros k Hk; lia| |lia].
      * apply run_aborted; [lia|intros k Hk; lia|now rewrite Nat.add_0_r].
      * now rewrite Nat.add_0_r.
Qed.

(* ------------------------------------------------------------------ *)
(** ** Counting events *)

Lemma count_app f l1 l2 : count f (l1 ++ l2) = (count f l1 + count f l2)%nat.
Proof. unfold count. now rewrite filter_app, length_app. Qed.

Lemma count_rounds_probe id n : count is_probe (rounds id n) = n.
Proof.
  induction n as [|n IH]; [reflexivity|].
  cbn [rounds]. rewrite count_app, IH. reflexivity.
Qed.

Lemma count_rounds_other f id n :
  f (EvSetTimeout STATE_VALIDATOR_POLLING_DELAY) = false ->
  f (EvGetStatus id) = false ->
  count f (rounds id n) = O.
Proof.
  intros H1 H2. induction n as [|n IH]; [reflexivity|].
  cbn [rounds]. rewrite count_app, IH. unfold count, round. cbn [filter].
  now rewrite H1, H2.
Qed.

(* ------------------------------------------------------------------ *)
(** ** The resolver, case by case *)

(** Splits a goal along the [switch] of the resolver. *)
Ltac by_action :=
  unfold generateInstructionsFromPayload in *;
  repeat match goal with
         | H : context [String.eqb ?a ?b] |- _ =>
             destruct (String.eqb_spec a b)
         | |- context [String.eqb ?a ?b] =>
             destruct (String.eqb_spec a b)
         end;
  cbn [orb] in *.

Lemma resolver_unknown p :
  ~ In (action p) known_actions ->
  generateInstructionsFromPayload p = None.
Proof.
  intros H. unfold known_actions in H. cbn [In] in H.
  by_action; try reflexivity; exfalso; apply H; intuition congruence.
Qed.

Lemma resolver_known p :
  In (action p) known_actions ->
  exists i, generateInstructionsFromPayload p = Some i.
Proof.
  intros H. unfold known_actions in H. cbn [In] in H.
  by_action; eauto. exfalso. intuition congruence.
Qed.

Lemma resolver_answers_known p i :
  generateInstructionsFromPayload p = Some i ->
  In (action p) known_actions.
Proof.
  intros H. unfold known_actions. cbn [In].
  by_action; try discriminate; intuition congruence.
Qed.

(** Only [stop] comes without an expected state. *)
Lemma resolver_state p i :
  generateInstructionsFromPayload p = Some i ->
  command i <> STOP ->
  exists es, expectedState i = Some es.
Proof.
  intros H Hc.
  by_action; inversion H; subst; cbn in *; eauto; congruence.
Qed.

Lemma resolver_stateless p i :
  generateInstructionsFromPayload p = Some i ->
  expectedState i = None ->
  command i = STOP.
Proof.
  intros H Hc.
  by_action; inversion H; subst; cbn in *; congruence.
Qed.

(** The resolver does not read [lowspeed]. *)
Lemma resolver_ignores_lowspeed b p :
  generateInstructionsFromPayload (with_lowspeed b p)
  = generateInstructionsFromPayload p.
Proof. reflexivity. Qed.

Lemma command_value_stop c :
  (command_value c =? "stop")%string = true <-> c = STOP.
Proof. destruct c; cbn; split; congruence. Qed.

(** Lines 80-89 never throw on what the resolver returns. *)
Lemma wire_command_defined p i :
  generateInstructionsFromPayload p = Some i ->
  exists cmd, wire_command p i = inr cmd.
Proof.
  intros H. unfold wire_command.
  destruct (lowspeed p); cbn [andb]; [|eauto].
  destruct (command_value (command i) =? "stop")%string eqn:E; cbn [negb]; [eauto|].
  destruct (resolver_state p i H) as [es Hes].
  - intros Hc. apply command_value_stop in Hc. congruence.
  - rewrite Hes. eauto.
Qed.

Lemma wire_command_base p i :
  lowspeed p = false ->
  wire_command p i = inr (base_command i).
Proof. intros H. unfold wire_command. now rewrite H. Qed.

Lemma wire_command_stop p i :
  command i = STOP ->
  wire_command p i = inr (base_command i).
Proof.
  intros H. unfold wire_command, base_command. rewrite H. cbn.
  now rewrite andb_false_r.
Qed.

Lemma wire_command_lowspeed p i es :
  lowspeed p = true ->
  command i <> STOP ->
  expectedState i = Some es ->
  wire_command p i
  = inr {| name := "position_low_speed";
           cmd_parameters := [or_default (es_position es) (Int 0)] |}.
Proof.
  intros Hl Hc He. unfold wire_command. rewrite Hl, He.
  destruct (command_value (command i) =? "stop")%string eqn:E.
  - apply command_value_stop in E. congruence.
  - reflexivity.
Qed.

(* ------------------------------------------------------------------ *)
(** ** The chain of one invocation *)

Lemma chain_rejected env fuel node msg i cmd w r :
  execute env (device node) cmd = Rejects r ->
  chain env fuel node msg i cmd w
  = (NeverSettles, emit (EvUnhandledRejection r) (started node i cmd w)).
Proof.
  intros H. unfold chain, bind, tell, unhandled, call_execute.
  now rewrite H.
Qed.

Lemma chain_unpolled env fuel node msg i cmd w resp :
  execute env (device node) cmd = Resolves resp ->
  expectedState i = None ->
  chain env fuel node msg i cmd w
  = (Fulfilled tt,
     emit (EvSend msg)
       (emit (EvStatus "grey" "dot" "Unknown") (started node i cmd w))).
Proof.
  intros H He. unfold chain, bind, tell, unhandled, call_execute.
  now rewrite H, He.
Qed.

Lemma chain_polled env fuel node msg i cmd w resp es :
  execute env (device node) cmd = Resolves resp ->
  expectedState i = Some es ->
  chain env fuel node msg i cmd w
  = match continueWhenCompleted env fuel (execId resp)
            (started node i cmd w) with
    | (Fulfilled _, w') =>
        (Fulfilled tt,
         emit (EvSend msg)
           (emit (EvStatus "green" "dot" (done (labels i))) w'))
    | (Rejected r, w') => (NeverSettles, emit (EvUnhandledRejection r) w')
    | other => other
    end.
Proof.
  intros H He. unfold chain, unhandled, call_execute, started, progress_status.
  unfold bind at 1. unfold tell at 1. unfold bind at 1.
  rewrite H, He. unfold bind at 1.
  destruct (continueWhenCompleted env fuel (execId resp) _)
    as [[[]|r| |] w']; reflexivity.
Qed.

(* ------------------------------------------------------------------ *)
(** ** The handler *)

Lemma on_input_unknown env fuel node msg w :
  generateInstructionsFromPayload (payload msg) = None ->
  on_input env fuel node msg w = (Ignored, w).
Proof. intros H. unfold on_input. now rewrite H. Qed.

Lemma on_input_known env fuel node msg w i cmd :
  generateInstructionsFromPayload (payload msg) = Some i ->
  wire_command (payload msg) i = inr cmd ->
  on_input env fuel node msg w
  = match chain env fuel node msg i cmd w with
    | (Fulfilled _, w') => (Completed, w')
    | (StillPolling, w') => (Unfinished, w')
    | (_, w') => (Aborted, w')
    end.
Proof. intros H Hc. unfold on_input. now rewrite H, Hc. Qed.

Lemma started_log node i cmd w :
  log (started node i cmd w)
  = log w ++ [progress_status i; EvExecute (device node) cmd].
Proof. unfold started, emit. cbn [log]. now rewrite <- app_assoc. Qed.

Lemma started_probes node i cmd w :
  probes (started node i cmd w) = probes w.
Proof. reflexivity. Qed.

(** Splits the conjunction of [on_input_shape] and closes all but its last
    part. *)
Ltac shape_goals :=
  refine (conj _ (conj _ (conj _ (conj _ _))));
  [ reflexivity
  | rewrite ?started_probes; lia
  | lia
  | congruence || reflexivity
  | ].

(** How the events of an invocation end. *)
Lemma on_input_shape env fuel node msg w i cmd :
  generateInstructionsFromPayload (payload msg) = Some i ->
  wire_command (payload msg) i = inr cmd ->
  exists id k tail out w',
    on_input env fuel node msg w = (out, w')
    /\ log w' = log w ++ [progress_status i; EvExecute (device node) cmd]
                  ++ rounds id k ++ tail
    /\ probes w' = (probes w + k)%nat
    /\ (k <= fuel)%nat
    /\ (expectedState i = None -> k = O)
    /\ ((tail = [] /\ out = Unfinished)
        \/ (exists r, tail = [EvUnhandledRejection r] /\ out = Aborted)
        \/ (tail = [terminal_status i; EvSend msg] /\ out = Completed)).
Proof.
  intros H Hc. rewrite (on_input_known _ _ _ _ _ _ _ H Hc).
  destruct (execute env (device node) cmd) as [resp|r] eqn:Ex.
  - destruct (expectedState i) as [es|] eqn:Es.
    + rewrite (chain_polled _ _ _ _ _ _ _ _ _ Ex Es).
      destruct (tracker_cases env (execId resp) fuel (started node i cmd w))
        as [n Hlt Hp Ha|n r Hlt Hp Ha|Hp].
      * exists (execId resp), (S n), [terminal_status i; EvSend msg], Completed.
        eexists. split; [reflexivity|]. unfold emit, terminal_status.
        rewrite Es. cbn [log probes].
        rewrite after_rounds_log, after_rounds_probes, started_log, started_probes.
        rewrite <- !app_assoc. cbn [app].
        shape_goals; right; right; auto.
      * exists (execId resp), (S n), [EvUnhandledRejection r], Aborted.
        eexists. split; [reflexivity|]. unfold emit. cbn [log probes].
        rewrite after_rounds_log, after_rounds_probes, started_log, started_probes.
        rewrite <- !app_assoc. cbn [app].
        shape_goals; right; left; eauto.
      * exists (execId resp), fuel, [], Unfinished.
        eexists. split; [reflexivity|].
        rewrite after_rounds_log, after_rounds_probes, started_log, started_probes.
        rewrite <- !app_assoc, app_nil_r. cbn [app].
        shape_goals; left; auto.
    + rewrite (chain_unpolled _ _ _ _ _ _ _ _ Ex Es).
      exists "", O, [terminal_status i; EvSend msg], Completed.
      eexists. split; [reflexivity|]. unfold emit, terminal_status.
      rewrite Es. cbn [log probes rounds app].
      rewrite started_log, <- !app_assoc. cbn [app].
      shape_goals; right; right; auto.
  - rewrite (chain_rejected _ _ _ _ _ _ _ _ Ex).
    exists "", O, [EvUnhandledRejection r], Aborted.
    eexists. split; [reflexivity|]. unfold emit. cbn [log probes rounds app].
    rewrite started_log, <- !app_assoc. cbn [app].
    shape_goals; right; left; eauto.
Qed.

(* ------------------------------------------------------------------ *)
(** ** The resolver's table *)

(** What [parseInt] makes of some texts: no digit gives [NaN], and a text
    that only starts with digits gives the number they spell. *)
Lemma parseInt_examples :
  parseInt "42" = Int 42
  /\ parseInt "abc" = NaN
  /\ parseInt "" = NaN
  /\ parseInt "12abc" = Int 12
  /\ parseInt " -7" = Int (-7).
Proof. repeat split. Qed.

(** C2: the resolver follows its table.  A payload whose action is ['open']
    gives the command OPEN, the expected state {open: true, position: 0} and
    the labels 'Opening...' / 'Open'; a payload whose action is
    ['customPosition'] and whose position text is ['42'] gives SET_CLOSURE
    with parameters [42], the expected state {open: true, position: 42} and
    the labels 'Setting to 42' / 'Set to 42'. *)
Theorem resolver_open_and_customPosition :
  forall p : ITahomaControlPayload,
    (action p = "open" ->
     generateInstructionsFromPayload p
     = Some {| command := OPEN;
               parameters := None;
               expectedState :=
                 Some {| es_open := Some true; es_position := Some (Int 0);
                         es_orientation := None; es_repetitions := None |};
               labels := {| done := "Open"; progress := "Opening..." |} |})
    /\ (action p = "customPosition" ->
        position p = "42" ->
        generateInstructionsFromPayload p
        = Some {| command := SET_CLOSURE;
                  parameters := Some [Int 42];
                  expectedState :=
                    Some {| es_open := Some true;
                            es_position := Some (Int 42);
                            es_orientation := None;
                            es_repetitions := None |};
                  labels := {| done := "Set to 42";
                               progress := "Setting to 42" |} |}).
Proof.
  intros p. split.
  - intros Ha. unfold generateInstructionsFromPayload. rewrite Ha. reflexivity.
  - intros Ha Hp. unfold generateInstructionsFromPayload. rewrite Ha, Hp.
    reflexivity.
Qed.

Lemma resolver_open_and_customPosition_witness :
  generateInstructionsFromPayload (Sample.mk_payload "open" "" "" "" false)
  = Some {| command := OPEN;
            parameters := None;
            expectedState :=
              Some {| es_open := Some true; es_position := Some (Int 0);
                      es_orientation := None; es_repetitions := None |};
            labels := {| done := "Open"; progress := "Opening..." |} |}
  /\ generateInstructionsFromPayload
       (Sample.mk_payload "customPosition" "42" "" "" false)
     = Some {| command := SET_CLOSURE;
               parameters := Some [Int 42];
               expectedState :=
                 Some {| es_open := Some true;
                         es_position := Some (Int 42);
                         es_orientation := None;
                         es_repetitions := None |};
               labels := {| done := "Set to 42";
                            progress := "Setting to 42" |} |}.
Proof.
  split.
  - apply (proj1 (resolver_open_and_customPosition
                    (Sample.mk_payload "open" "" "" "" false))).
    reflexivity.
  - apply (proj2 (resolver_open_and_customPosition
                    (Sample.mk_payload "customPosition" "42" "" "" false)));
      reflexivity.
Defined.

(** C10: a payload whose action is ['wink'] and whose repetitions text is
    [r] gives the command WINK with the parameters [parseInt r], the expected
    state {repetitions: parseInt r}, the progress label 'Winking r time(s)'
    and the done label 'Stopped', which is also the done label of the
    ['stop'] action. *)
Theorem resolver_wink :
  forall p : ITahomaControlPayload,
    action p = "wink" ->
    generateInstructionsFromPayload p
    = Some {| command := WINK;
              parameters := Some [parseInt (repetitions p)];
              expectedState :=
                Some {| es_open := None; es_position := None;
                        es_orientation := None;
                        es_repetitions := Some (parseInt (repetitions p)) |};
              labels := {| done := "Stopped";
                           progress := ("Winking " ++ repetitions p
                                          ++ " time(s)")%string |} |}
    /\ forall q j,
         action q = "stop" ->
         generateInstructionsFromPayload q = Some j ->
         done (labels j) = "Stopped".
Proof.
  intros p Ha. split.
  - unfold generateInstructionsFromPayload. rewrite Ha. reflexivity.
  - intros q j Hq Hj. unfold generateInstructionsFromPayload in Hj.
    rewrite Hq in Hj. cbn in Hj. now inversion Hj.
Qed.

Lemma resolver_wink_witness :
  generateInstructionsFromPayload (Sample.mk_payload "wink" "" "" "3" false)
  = Some {| command := WINK;
            parameters := Some [Int 3];
            expectedState :=
              Some {| es_open := None; es_position := None;
                      es_orientation := None;
                      es_repetitions := Some (Int 3) |};
            labels := {| done := "Stopped";
                         progress := "Winking 3 time(s)" |} |}.
Proof.
  apply (proj1 (resolver_wink (Sample.mk_payload "wink" "" "" "3" false)
                  eq_refl)).
Defined.

(* ------------------------------------------------------------------ *)
(** ** What [parseInt] makes of a text *)

Lemma digit_value_digit d :
  (d < 10)%nat -> digit_value (ascii_of_nat (48 + d)) = Some (Z.of_nat d).
Proof.
  intros H. do 10 (destruct d as [|d]; [reflexivity|]). lia.
Qed.

(** Once a digit has been read, there is a value. *)
Lemma read_digits_started s : forall a,
  exists m, read_digits s (Some a) = Some m.
Proof.
  induction s as [|c s IH]; intros a; cbn [read_digits]; [eauto|].
  destruct (digit_value c); [apply IH|eauto].
Qed.

Lemma read_digits_none s :
  read_digits s None = None <-> starts_with_digit s = false.
Proof.
  destruct s as [|c s]; cbn [read_digits starts_with_digit]; [tauto|].
  destruct (digit_value c) as [d|]; [|tauto].
  destruct (read_digits_started s (10 * 0 + d)) as [m Hm]. rewrite Hm.
  split; discriminate.
Qed.

Lemma read_digits_stops rest acc :
  starts_with_digit rest = false -> read_digits rest acc = acc.
Proof.
  destruct rest as [|c rest]; cbn [read_digits starts_with_digit]; [easy|].
  now destruct (digit_value c).
Qed.

Lemma read_digits_value ds rest : forall a,
  Forall (fun d => (d < 10)%nat) ds ->
  starts_with_digit rest = false ->
  read_digits (text_of_digits ds ++ rest)%string (Some a)
  = Some (decimal_from a ds).
Proof.
  induction ds as [|d ds IH]; intros a Hds Hrest.
  - cbn. now apply read_digits_stops.
  - inversion Hds as [|? ? Hd Hds']; subst.
    cbn [text_of_digits append read_digits].
    rewrite (digit_value_digit d Hd). now rewrite IH.
Qed.

Lemma read_digits_spelled ds rest :
  ds <> [] ->
  Forall (fun d => (d < 10)%nat) ds ->
  starts_with_digit rest = false ->
  read_digits (text_of_digits ds ++ rest)%string None
  = Some (decimal_value ds).
Proof.
  intros Hne Hds Hrest. destruct ds as [|d ds]; [congruence|].
  inversion Hds as [|? ? Hd Hds']; subst.
  cbn [text_of_digits append read_digits].
  rewrite (digit_value_digit d Hd).
  now rewrite read_digits_value.
Qed.

Lemma of_integer_is_a_number negative m : of_integer negative m <> NaN.
Proof.
  unfold of_integer. destruct (m =? 0); [now destruct negative|].
  destruct (round_to_double m); now destruct negative.
Qed.

Lemma of_integer_exact negative m :
  m < 2 ^ 53 ->
  of_integer negative m
  = if m =? 0 then (if negative then NegZero else Int 0)
    else Int (if negative then - m else m).
Proof.
  intros H. unfold of_integer, round_to_double.
  destruct (Z.ltb_spec m (2 ^ 53)); [reflexivity|lia].
Qed.

Lemma parseInt_unfold s :
  parseInt s
  = match read_digits (unsigned_body s) None with
    | Some m => of_integer (is_negative s) m
    | None => NaN
    end.
Proof.
  unfold parseInt, unsigned_body, is_negative.
  now destruct (split_sign (trim_start s)).
Qed.

Lemma parseInt_nan s :
  parseInt s = NaN <-> starts_with_digit (unsigned_body s) = false.
Proof.
  rewrite parseInt_unfold, <- read_digits_none.
  destruct (read_digits (unsigned_body s) None) as [m|]; [|tauto].
  split; [|discriminate]. intros H. now apply of_integer_is_a_number in H.
Qed.

Lemma parseInt_spelled s ds rest :
  unsigned_body s = (text_of_digits ds ++ rest)%string ->
  ds <> [] ->
  Forall (fun d => (d < 10)%nat) ds ->
  starts_with_digit rest = false ->
  parseInt s = of_integer (is_negative s) (decimal_value ds).
Proof.
  intros Hb Hne Hds Hrest.
  now rewrite parseInt_unfold, Hb, (read_digits_spelled ds rest Hne Hds Hrest).
Qed.

Lemma trim_start_white_space w s :
  In w white_space -> trim_start (w ++ s)%string = trim_start s.
Proof.
  unfold white_space. cbn [map app In].
  intros H.
  repeat (destruct H as [<-|H]; [reflexivity|]).
  destruct H.
Qed.

Lemma parseInt_white_space w s :
  In w white_space -> parseInt (w ++ s)%string = parseInt s.
Proof.
  intros H. unfold parseInt. now rewrite trim_start_white_space.
Qed.

(** Texts that are no integers and still parse, rounding past 2^53, and
    white space beyond ASCII. *)
Lemma parseInt_more_examples :
  parseInt "4.9" = Int 4
  /\ parseInt "1e3" = Int 1
  /\ parseInt "0x1F" = Int 0
  /\ parseInt "-0" = NegZero
  /\ parseInt "- 5" = NaN
  /\ parseInt "9007199254740993" = Int 9007199254740992
  /\ parseInt (utf8_2 194 160 ++ "42")%string = Int 42.
Proof. repeat split. Qed.

(** C8, as the code has it: the resolver does not validate numbers.  For
    every payload with a known action it returns an instruction, and the
    numbers of that instruction, in the parameters and in the expected state
    alike, are what [parseInt(text, 10)] makes of the text fields.  That is
    [NaN] exactly when the text, after leading white space and an optional
    sign, does not begin with a decimal digit; otherwise it is the number
    the leading digits spell (the nearest double, exact below 2^53),
    whatever follows them. *)
Theorem numeric_text_is_parsed_not_validated :
  forall p : ITahomaControlPayload,
    In (action p) known_actions ->
    exists i,
      generateInstructionsFromPayload p = Some i
      /\ (action p = "customPosition" ->
          parameters i = Some [parseInt (position p)]
          /\ expected_position i = Some (parseInt (position p)))
      /\ (action p = "customRotation" \/ action p = "customOrientation" ->
          parameters i = Some [parseInt (orientation p)]
          /\ expected_orientation i = Some (parseInt (orientation p)))
      /\ (action p = "customClosureAndOrientation" ->
          parameters i
          = Some [parseInt (position p); parseInt (orientation p)]
          /\ expected_position i = Some (parseInt (position p))
          /\ expected_orientation i = Some (parseInt (orientation p)))
      /\ (action p = "wink" ->
          parameters i = Some [parseInt (repetitions p)]
          /\ expected_repetitions i = Some (parseInt (repetitions p)))
      /\ (forall s,
            parseInt s = NaN
            <-> starts_with_digit (unsigned_body s) = false)
      /\ (forall s ds rest,
            unsigned_body s = (text_of_digits ds ++ rest)%string ->
            ds <> [] ->
            Forall (fun d => (d < 10)%nat) ds ->
            starts_with_digit rest = false ->
            parseInt s = of_integer (is_negative s) (decimal_value ds)
            /\ (decimal_value ds < 2 ^ 53 ->
                parseInt s
                = if decimal_value ds =? 0
                  then (if is_negative s then NegZero else Int 0)
                  else Int (if is_negative s then - decimal_value ds
                            else decimal_value ds)))
      /\ (forall w s,
            In w white_space -> parseInt (w ++ s)%string = parseInt s).
Proof.
  intros p Hk. destruct (resolver_known p Hk) as [i Hi].
  exists i. split; [exact Hi|].
  unfold generateInstructionsFromPayload in Hi.
  split; [|split; [|split; [|split]]].
  1-4: intros Ha; try destruct Ha as [Ha|Ha];
    rewrite Ha in Hi; cbn in Hi; inversion Hi; subst;
    unfold expected_position, expected_orientation, expected_repetitions;
    cbn [parameters expectedState es_position es_orientation es_repetitions];
    repeat split.
  split; [exact parseInt_nan|]. split; [|exact parseInt_white_space].
  intros s ds rest Hb Hne Hds Hrest.
  pose proof (parseInt_spelled s ds rest Hb Hne Hds Hrest) as Hv.
  split; [exact Hv|]. intros Hlt. rewrite Hv. now apply of_integer_exact.
Qed.

Lemma numeric_text_is_parsed_not_validated_witness :
  exists i,
    generateInstructionsFromPayload
      (Sample.mk_payload "customClosureAndOrientation" "12abc" "abc" ""
         false) = Some i
    /\ parameters i = Some [Int 12; NaN]
    /\ expected_position i = Some (Int 12)
    /\ expected_orientation i = Some NaN.
Proof.
  destruct (numeric_text_is_parsed_not_validated
              (Sample.mk_payload "customClosureAndOrientation" "12abc" "abc"
                 "" false))
    as [i [Hi [_ [_ [Hboth [_ [Hnan [Hval _]]]]]]]].
  - cbn. tauto.
  - destruct (Hboth eq_refl) as [Hps [Hpos Hori]].
    assert (H12 : parseInt "12abc" = Int 12).
    { apply (proj2 (Hval "12abc" [1; 2]%nat "abc" eq_refl
                      ltac:(discriminate)
                      ltac:(repeat constructor)
                      eq_refl)).
      reflexivity. }
    assert (Habc : parseInt "abc" = NaN) by (apply Hnan; reflexivity).
    exists i. split; [exact Hi|].
    cbn [Sample.mk_payload position orientation] in Hps, Hpos, Hori.
    rewrite H12, Habc in Hps. rewrite H12 in Hpos. rewrite Habc in Hori.
    split; [exact Hps|]. split; [exact Hpos|exact Hori].
Defined.

(** C8 as the spec has it fails on a text that starts with digits: ['12abc']
    spells no integer, and the position it gives is 12, not [NaN]. *)
Lemma numeric_text_is_parsed_not_validated_counterexample :
  is_integer_text "12abc" = false
  /\ parseInt "12abc" = Int 12
  /\ parseInt "12abc" <> NaN
  /\ exists i,
       generateInstructionsFromPayload
         (Sample.mk_payload "customPosition" "12abc" "" "" false) = Some i
       /\ parameters i = Some [Int 12]
       /\ expected_position i = Some (Int 12).
Proof.
  split; [reflexivity|]. split; [reflexivity|]. split; [discriminate|].
  eexists. split; [reflexivity|]. split; reflexivity.
Qed.

(* ------------------------------------------------------------------ *)
(** ** Unknown actions and [stop] *)

(** C7: for a payload whose action is not in the resolver's table the
    resolver returns null and the handler does nothing: it returns at once
    and leaves the world as it was, so no status is shown, no gateway call
    is made and nothing is sent on. *)
Theorem unknown_action_is_ignored :
  forall env fuel node msg w,
    ~ In (action (payload msg)) known_actions ->
    generateInstructionsFromPayload (payload msg) = None
    /\ on_input env fuel node msg w = (Ignored, w).
Proof.
  intros env fuel node msg w H.
  pose proof (resolver_unknown _ H) as Hn.
  split; [exact Hn|]. now apply on_input_unknown.
Qed.

Lemma unknown_action_is_ignored_witness :
  generateInstructionsFromPayload (Sample.mk_payload "bogus" "10" "" "" true)
  = None
  /\ on_input Sample.env_two_then_absent 5 Sample.node
       (Sample.mk_msg (Sample.mk_payload "bogus" "10" "" "" true)) Sample.w0
     = (Ignored, Sample.w0).
Proof.
  apply (unknown_action_is_ignored Sample.env_two_then_absent 5 Sample.node
           (Sample.mk_msg (Sample.mk_payload "bogus" "10" "" "" true))
           Sample.w0).
  cbn. intuition discriminate.
Defined.

(** C3: for the action ['stop'] the resolver returns the command STOP with
    the labels 'Stopping...' / 'Stopped' and no expected state.  The handler
    then never probes the gateway, whatever the gateway does; and once the
    gateway has accepted the command it shows the status 'Unknown' and sends
    the message on. *)
Theorem stop_is_not_tracked :
  forall env fuel node msg w,
    action (payload msg) = "stop" ->
    generateInstructionsFromPayload (payload msg)
    = Some {| command := STOP;
              parameters := None;
              expectedState := None;
              labels := {| done := "Stopped"; progress := "Stopping..." |} |}
    /\ (exists evs,
          log (snd (on_input env fuel node msg w)) = log w ++ evs
          /\ count is_probe evs = O
          /\ ~ In (EvSetTimeout STATE_VALIDATOR_POLLING_DELAY) evs)
    /\ probes (snd (on_input env fuel node msg w)) = probes w
    /\ (forall resp,
          execute env (device node) stop_command = Resolves resp ->
          on_input env fuel node msg w
          = (Completed,
             {| now := now w;
                probes := probes w;
                log := log w
                         ++ [EvStatus "yellow" "dot" "Stopping...";
                             EvExecute (device node) stop_command;
                             EvStatus "grey" "dot" "Unknown";
                             EvSend msg] |})).
Proof.
  intros env fuel node msg w Ha.
  set (i := {| command := STOP; parameters := None; expectedState := None;
               labels := {| done := "Stopped"; progress := "Stopping..." |} |}).
  assert (Hi : generateInstructionsFromPayload (payload msg) = Some i).
  { unfold generateInstructionsFromPayload. rewrite Ha. reflexivity. }
  split; [exact Hi|].
  pose proof (wire_command_stop (payload msg) i eq_refl) as Hc.
  rewrite (on_input_known _ fuel node msg w _ _ Hi Hc).
  change (base_command i) with stop_command.
  destruct (execute env (device node) stop_command) as [resp|r] eqn:Ex.
  - rewrite (chain_unpolled env fuel node msg i _ w _ Ex eq_refl).
    unfold started, emit, progress_status. cbn [snd log probes now labels progress].
    rewrite <- !app_assoc. cbn [app].
    split; [|split].
    + eexists. split; [reflexivity|]. split; [reflexivity|].
      cbn. intuition discriminate.
    + reflexivity.
    + intros resp' _. reflexivity.
  - rewrite (chain_rejected env fuel node msg i _ w _ Ex).
    unfold started, emit, progress_status. cbn [snd log probes now labels progress].
    rewrite <- !app_assoc. cbn [app].
    split; [|split].
    + eexists. split; [reflexivity|]. split; [reflexivity|].
      cbn. intuition discriminate.
    + reflexivity.
    + intros resp' H'. discriminate.
Qed.

Lemma stop_is_not_tracked_witness :
  on_input Sample.env_two_then_absent 5 Sample.node
    (Sample.mk_msg (Sample.mk_payload "stop" "" "" "" true)) Sample.w0
  = (Completed,
     {| now := 0;
        probes := 0;
        log := [EvStatus "yellow" "dot" "Stopping...";
                EvExecute (device Sample.node) stop_command;
                EvStatus "grey" "dot" "Unknown";
                EvSend (Sample.mk_msg
                          (Sample.mk_payload "stop" "" "" "" true))] |}).
Proof.
  apply (proj2 (proj2 (proj2
           (stop_is_not_tracked Sample.env_two_then_absent 5 Sample.node
              (Sample.mk_msg (Sample.mk_payload "stop" "" "" "" true))
              Sample.w0 eq_refl)))
           {| execId := "exec-1" |}).
  reflexivity.
Defined.

(* ------------------------------------------------------------------ *)
(** ** The low-speed override *)

Lemma or_default_falsy v :
  v = None \/ v = Some (Int 0) \/ v = Some NaN ->
  or_default v (Int 0) = Int 0.
Proof. intros [H|[H|H]]; subst; reflexivity. Qed.

Lemma or_default_int z : or_default (Some (Int z)) (Int 0) = Int z.
Proof.
  unfold or_default, truthy. destruct (Z.eqb_spec z 0); cbn; congruence.
Qed.

Lemma low_speed_name_is_new c : "position_low_speed" <> command_value c.
Proof. destruct c; discriminate. Qed.

(** C9: every instruction of the resolver whose command is not STOP has an
    expected state, so lines 80-89 never throw on what the resolver returns;
    and under the low-speed override an expected position that is absent, 0
    (of either sign) or [NaN] (a malformed position text) puts [0] on the
    wire: [NaN] does not reach the gateway. *)
Theorem lowspeed_position_is_defined :
  forall p i,
    generateInstructionsFromPayload p = Some i ->
    (exists cmd, wire_command p i = inr cmd)
    /\ (command i <> STOP ->
        exists es,
          expectedState i = Some es
          /\ (lowspeed p = true ->
              es_position es = None \/ es_position es = Some (Int 0)
              \/ es_position es = Some NaN \/ es_position es = Some NegZero ->
              wire_command p i
              = inr {| name := "position_low_speed";
                       cmd_parameters := [Int 0] |})).
Proof.
  intros p i Hi. split.
  - now apply wire_command_defined with (1 := Hi).
  - intros Hc. destruct (resolver_state p i Hi Hc) as [es Hes].
    exists es. split; [exact Hes|]. intros Hl Hpos.
    rewrite (wire_command_lowspeed p i es Hl Hc Hes).
    destruct Hpos as [H|[H|[H|H]]]; now rewrite H.
Qed.

Lemma lowspeed_position_is_defined_witness :
  wire_command Sample.slow_malformed
    {| command := SET_CLOSURE;
       parameters := Some [NaN];
       expectedState :=
         Some {| es_open := Some true; es_position := Some NaN;
                 es_orientation := None; es_repetitions := None |};
       labels := {| done := "Set to abc"; progress := "Setting to abc" |} |}
  = inr {| name := "position_low_speed"; cmd_parameters := [Int 0] |}.
Proof.
  destruct (proj2 (lowspeed_position_is_defined Sample.slow_malformed _
                     eq_refl))
    as [es [Hes Hw]].
  - discriminate.
  - apply Hw; [reflexivity|].
    injection Hes as <-. right. right. left. reflexivity.
Defined.

(** C4, as the code has it: for every payload with [lowspeed] true whose
    instruction is not STOP, the command sent is ['position_low_speed'], a
    name none of the resolver's commands has, with one parameter: the
    expected position when that is a number ([0] for negative zero), and 0
    when the expected state holds no position or holds [NaN].  The instruction is the one the
    resolver returns without [lowspeed], and the chain runs with its labels
    and its expected state: only the command differs. *)
Theorem lowspeed_override :
  forall p i,
    lowspeed p = true ->
    generateInstructionsFromPayload p = Some i ->
    command i <> STOP ->
    exists t,
      wire_command p i
      = inr {| name := "position_low_speed"; cmd_parameters := [t] |}
      /\ (forall z, expected_position i = Some (Int z) -> t = Int z)
      /\ (expected_position i = None -> t = Int 0)
      /\ (expected_position i = Some NaN -> t = Int 0)
      /\ (expected_position i = Some NegZero -> t = Int 0)
      /\ (expected_position i = Some Infinity -> t = Infinity)
      /\ (expected_position i = Some NegInfinity -> t = NegInfinity)
      /\ "position_low_speed" <> command_value (command i)
      /\ generateInstructionsFromPayload (with_lowspeed false p) = Some i
      /\ wire_command (with_lowspeed false p) i = inr (base_command i)
      /\ forall env fuel node msg w,
           payload msg = p ->
           on_input env fuel node msg w
           = match chain env fuel node msg i
                     {| name := "position_low_speed";
                        cmd_parameters := [t] |} w with
             | (Fulfilled _, w') => (Completed, w')
             | (StillPolling, w') => (Unfinished, w')
             | (_, w') => (Aborted, w')
             end.
Proof.
  intros p i Hl Hi Hc.
  destruct (resolver_state p i Hi Hc) as [es Hes].
  pose proof (wire_command_lowspeed p i es Hl Hc Hes) as Hw.
  exists (or_default (es_position es) (Int 0)).
  unfold expected_position. rewrite Hes.
  split; [exact Hw|].
  split; [intros z Hz; rewrite Hz; apply or_default_int|].
  split; [intros Hz; now rewrite Hz|].
  split; [intros Hz; now rewrite Hz|].
  split; [intros Hz; now rewrite Hz|].
  split; [intros Hz; now rewrite Hz|].
  split; [intros Hz; now rewrite Hz|].
  split; [apply low_speed_name_is_new|].
  split; [now rewrite resolver_ignores_lowspeed|].
  split; [now apply wire_command_base|].
  intros env fuel node msg w Hm. subst p.
  now apply on_input_known.
Qed.

Lemma lowspeed_override_witness :
  exists t,
    wire_command (Sample.mk_payload "customPosition" "55" "" "" true)
      {| command := SET_CLOSURE;
         parameters := Some [Int 55];
         expectedState :=
           Some {| es_open := Some true; es_position := Some (Int 55);
                   es_orientation := None; es_repetitions := None |};
         labels := {| done := "Set to 55"; progress := "Setting to 55" |} |}
    = inr {| name := "position_low_speed"; cmd_parameters := [t] |}
    /\ t = Int 55.
Proof.
  destruct (lowspeed_override
              (Sample.mk_payload "customPosition" "55" "" "" true) _
              eq_refl eq_refl)
    as [t [Hw [Hz _]]].
  - discriminate.
  - exists t. split; [exact Hw|]. apply Hz. reflexivity.
Defined.

(** C4 as the spec has it fails when the position text is malformed: the
    expected state then holds the position [NaN], and what goes out is [0],
    not that position. *)
Lemma lowspeed_override_counterexample :
  exists i,
    generateInstructionsFromPayload Sample.slow_malformed = Some i
    /\ lowspeed Sample.slow_malformed = true
    /\ command i <> STOP
    /\ expected_position i = Some NaN
    /\ target_position i = NaN
    /\ wire_command Sample.slow_malformed i
       = inr {| name := "position_low_speed"; cmd_parameters := [Int 0] |}
    /\ wire_command Sample.slow_malformed i
       <> inr {| name := "position_low_speed";
                 cmd_parameters := [target_position i] |}.
Proof.
  eexists. split; [reflexivity|].
  repeat split; discriminate.
Qed.

(* ------------------------------------------------------------------ *)
(** ** The completion tracker *)

Lemma pending_for_le env id k0 n m :
  (m <= n)%nat -> pending_for env id k0 n -> pending_for env id k0 m.
Proof. intros Hle Hp k Hk. apply Hp. lia. Qed.

(** The tracker goes on for as long as the gateway reports the execution,
    however long that is. *)
Lemma tracker_never_gives_up env id w :
  (forall k, pending_at env id (probes w + k)) ->
  forall fuel,
    continueWhenCompleted env fuel id w
    = (StillPolling, after_rounds env id fuel w).
Proof.
  intros H fuel. apply tracker_keeps_polling. intros k _. apply H.
Qed.

(** C1: the tracker waits 2500 ms before every probe, resolves at the first
    probe that reports null and goes round again at every other answer, with
    no bound on the rounds.  When the execution is pending at [n] probes and
    gone at the next, the tracker has resolved once [n + 1] rounds have been
    observed, and not before; it has then made [n + 1] probes, each after a
    timer of 2500 ms, and at least [(n + 1) * 2500] ms have passed.  When
    the execution is never gone the tracker is still polling after any
    number of rounds.  For two pending answers and then null it resolves
    after the third probe and no sooner than two delays later. *)
Theorem tracker_polls_until_absent :
  forall env id w,
    (forall n,
       pending_for env id (probes w) n ->
       getStatusForExecutionId env (probes w + n) id = Resolves None ->
       (forall fuel,
          (n < fuel)%nat ->
          exists w',
            continueWhenCompleted env fuel id w = (Fulfilled tt, w')
            /\ probes w' = (probes w + S n)%nat
            /\ log w' = log w ++ rounds id (S n)
            /\ now w + Z.of_nat (S n) * STATE_VALIDATOR_POLLING_DELAY
               <= now w')
       /\ (forall fuel,
             (fuel <= n)%nat ->
             exists w',
               continueWhenCompleted env fuel id w = (StillPolling, w')
               /\ probes w' = (probes w + fuel)%nat))
    /\ ((forall k, pending_at env id (probes w + k)) ->
        forall fuel,
        exists w',
          continueWhenCompleted env fuel id w = (StillPolling, w')
          /\ probes w' = (probes w + fuel)%nat
          /\ log w' = log w ++ rounds id fuel)
    /\ (pending_for env id (probes w) 2 ->
        getStatusForExecutionId env (probes w + 2) id = Resolves None ->
        forall fuel w',
          continueWhenCompleted env fuel id w = (Fulfilled tt, w') ->
          probes w' = (probes w + 3)%nat
          /\ now w + 2 * 2500 <= now w'
          /\ log w' = log w ++ [EvSetTimeout 2500; EvGetStatus id;
                                EvSetTimeout 2500; EvGetStatus id;
                                EvSetTimeout 2500; EvGetStatus id]).
Proof.
  intros env id w.
  assert (Hgen : forall n,
             pending_for env id (probes w) n ->
             getStatusForExecutionId env (probes w + n) id = Resolves None ->
             (forall fuel, (n < fuel)%nat ->
                continueWhenCompleted env fuel id w
                = (Fulfilled tt, after_rounds env id (S n) w))
             /\ (forall fuel, (fuel <= n)%nat ->
                   continueWhenCompleted env fuel id w
                   = (StillPolling, after_rounds env id fuel w))).
  { intros n Hp Hn. split; intros fuel Hf.
    - now apply tracker_resolves.
    - apply tracker_keeps_polling. now apply pending_for_le with (n := n). }
  split; [|split].
  - intros n Hp Hn. destruct (Hgen n Hp Hn) as [Hres Hpoll]. split.
    + intros fuel Hf. exists (after_rounds env id (S n) w).
      split; [now apply Hres|].
      split; [apply after_rounds_probes|].
      split; [apply after_rounds_log|apply after_rounds_now].
    + intros fuel Hf. exists (after_rounds env id fuel w).
      split; [now apply Hpoll|apply after_rounds_probes].
  - intros Hall fuel. exists (after_rounds env id fuel w).
    split; [now apply tracker_never_gives_up|].
    split; [apply after_rounds_probes|apply after_rounds_log].
  - intros Hp Hn fuel w' Hrun. destruct (Hgen 2%nat Hp Hn) as [Hres Hpoll].
    destruct (Nat.le_gt_cases fuel 2) as [Hle|Hgt].
    + rewrite (Hpoll fuel Hle) in Hrun. discriminate.
    + rewrite (Hres fuel Hgt) in Hrun. injection Hrun as <-.
      split; [exact (after_rounds_probes env id 3 w)|].
      split; [|exact (after_rounds_log env id 3 w)].
      pose proof (after_rounds_now env id 3 w) as Ht.
      cbn [after_rounds] in Ht. change (Z.of_nat 3) with 3 in Ht.
      unfold STATE_VALIDATOR_POLLING_DELAY in Ht at 1. lia.
Qed.

Lemma tracker_polls_until_absent_witness :
  exists w',
    continueWhenCompleted Sample.env_two_then_absent 7 "exec-1" Sample.w0
    = (Fulfilled tt, w')
    /\ probes w' = 3%nat
    /\ log w' = [EvSetTimeout 2500; EvGetStatus "exec-1";
                 EvSetTimeout 2500; EvGetStatus "exec-1";
                 EvSetTimeout 2500; EvGetStatus "exec-1"]
    /\ 3 * 2500 <= now w'.
Proof.
  destruct (proj1 (tracker_polls_until_absent Sample.env_two_then_absent
                     "exec-1" Sample.w0) 2%nat) as [Hres _].
  - intros k Hk. exists Sample.running.
    destruct k as [|[|k]]; [reflexivity|reflexivity|lia].
  - reflexivity.
  - destruct (Hres 7%nat ltac:(lia)) as [w' [Hrun [Hp [Hl Ht]]]].
    exists w'. split; [exact Hrun|]. split; [exact Hp|].
    split; [exact Hl|exact Ht].
Defined.

(* ------------------------------------------------------------------ *)
(** ** Order of the statuses and of the forward *)

Lemma is_status_terminal i : is_status (terminal_status i) = true.
Proof. unfold terminal_status. now destruct (expectedState i). Qed.

Lemma count_started_rounds f node i cmd id k :
  f (EvSetTimeout STATE_VALIDATOR_POLLING_DELAY) = false ->
  f (EvGetStatus id) = false ->
  count f ([progress_status i; EvExecute (device node) cmd] ++ rounds id k)
  = count f [progress_status i; EvExecute (device node) cmd].
Proof.
  intros H1 H2. rewrite count_app, (count_rounds_other f id k H1 H2). lia.
Qed.

(** When the gateway accepts the command and the execution ends, the
    invocation completes. *)
Lemma on_input_completes env fuel node msg w i cmd resp :
  generateInstructionsFromPayload (payload msg) = Some i ->
  wire_command (payload msg) i = inr cmd ->
  execute env (device node) cmd = Resolves resp ->
  expectedState i = None
  \/ (exists n,
        (n < fuel)%nat
        /\ pending_for env (execId resp) (probes w) n
        /\ getStatusForExecutionId env (probes w + n) (execId resp)
           = Resolves None) ->
  fst (on_input env fuel node msg w) = Completed.
Proof.
  intros Hi Hc Ex Hend. rewrite (on_input_known _ _ _ _ _ _ _ Hi Hc).
  destruct (expectedState i) as [es|] eqn:Es.
  - destruct Hend as [Hend|[n [Hlt [Hp Hn]]]]; [discriminate|].
    rewrite (chain_polled _ _ _ _ _ _ _ _ _ Ex Es).
    rewrite <- (started_probes node i cmd w) in Hp, Hn.
    now rewrite (tracker_resolves _ _ _ _ _ Hp Hn Hlt).
  - now rewrite (chain_unpolled _ _ _ _ _ _ _ _ Ex Es).
Qed.

(** C5, as the code has it: in every invocation with a known action the
    progress status is the first thing that happens.  The terminal status
    ('done' or 'unknown') and the forward of the message come together, in
    that order and as the last two events, with no other status than the
    progress one and no forward before them; an invocation that does not
    complete shows no terminal status and forwards nothing.  The invocation
    completes, and so forwards the message exactly once, when the gateway
    accepts the command and, for an instruction with an expected state, a
    probe reports null before any probe fails. *)
Theorem status_then_forward :
  forall env fuel node msg w,
    In (action (payload msg)) known_actions ->
    exists i cmd evs,
      generateInstructionsFromPayload (payload msg) = Some i
      /\ wire_command (payload msg) i = inr cmd
      /\ log (snd (on_input env fuel node msg w)) = log w ++ evs
      /\ hd_error evs = Some (progress_status i)
      /\ ((fst (on_input env fuel node msg w) = Completed
           /\ exists before,
                evs = before ++ [terminal_status i; EvSend msg]
                /\ count is_status before = 1%nat
                /\ count is_send before = O
                /\ count is_send evs = 1%nat)
          \/ (fst (on_input env fuel node msg w) <> Completed
              /\ count is_status evs = 1%nat
              /\ count is_send evs = O))
      /\ (forall resp,
            execute env (device node) cmd = Resolves resp ->
            expectedState i = None
            \/ (exists n,
                  (n < fuel)%nat
                  /\ pending_for env (execId resp) (probes w) n
                  /\ getStatusForExecutionId env (probes w + n) (execId resp)
                     = Resolves None) ->
            fst (on_input env fuel node msg w) = Completed).
Proof.
  intros env fuel node msg w Hk.
  destruct (resolver_known _ Hk) as [i Hi].
  destruct (wire_command_defined _ _ Hi) as [cmd Hc].
  destruct (on_input_shape env fuel node msg w i cmd Hi Hc)
    as [id [k [tail [out [w' [Hrun [Hlog [_ [_ [_ Htail]]]]]]]]]].
  exists i, cmd,
    ([progress_status i; EvExecute (device node) cmd] ++ rounds id k ++ tail).
  rewrite Hrun. cbn [fst snd].
  split; [exact Hi|]. split; [exact Hc|]. split; [exact Hlog|].
  split; [reflexivity|].
  split.
  - assert (Hst : count is_status
                    ([progress_status i; EvExecute (device node) cmd]
                       ++ rounds id k) = 1%nat)
      by (now rewrite count_started_rounds).
    assert (Hse : count is_send
                    ([progress_status i; EvExecute (device node) cmd]
                       ++ rounds id k) = O)
      by (now rewrite count_started_rounds).
    rewrite app_assoc.
    destruct Htail as [[-> ->]|[[r [-> ->]]|[-> ->]]].
    + right. rewrite app_nil_r. repeat split; [discriminate|exact Hst|exact Hse].
    + right.
      rewrite (count_app is_status (_ ++ rounds id k)),
        (count_app is_send (_ ++ rounds id k)), Hst, Hse.
      repeat split; discriminate.
    + left. split; [reflexivity|]. eexists. split; [reflexivity|].
      split; [exact Hst|]. split; [exact Hse|].
      rewrite (count_app is_send (_ ++ rounds id k)), Hse.
      unfold count. cbn [filter is_send].
      now destruct (terminal_status i) eqn:E;
        try (pose proof (is_status_terminal i) as Ht; rewrite E in Ht;
             discriminate).
  - intros resp Ex Hend.
    pose proof (on_input_completes env fuel node msg w i cmd resp
                  Hi Hc Ex Hend) as Hdone.
    now rewrite Hrun in Hdone.
Qed.

Lemma status_then_forward_witness :
  exists evs,
    log (snd (on_input Sample.env_two_then_absent 5 Sample.node
                Sample.wink_msg Sample.w0)) = evs
    /\ hd_error evs = Some (EvStatus "yellow" "dot" "Winking 2 time(s)")
    /\ count is_send evs = 1%nat.
Proof.
  destruct (status_then_forward Sample.env_two_then_absent 5 Sample.node
              Sample.wink_msg Sample.w0)
    as [i [cmd [evs [Hi [_ [Hlog [Hhd _]]]]]]].
  - cbn. tauto.
  - exists evs. change (log Sample.w0 ++ evs) with evs in Hlog.
    split; [exact Hlog|]. split.
    + rewrite Hhd. injection Hi as <-. reflexivity.
    + rewrite <- Hlog. reflexivity.
Defined.

(** C5 as the spec has it fails when the gateway refuses the command: the
    action is known, the progress status is shown, and the message is never
    forwarded, however long one waits. *)
Lemma status_then_forward_counterexample :
  In (action (payload Sample.open_msg)) known_actions
  /\ ~ (exists fuel,
          count is_send
            (log (snd (on_input Sample.env_execute_fails fuel Sample.node
                         Sample.open_msg Sample.w0))) = 1%nat).
Proof.
  split.
  - cbn. tauto.
  - intros [fuel H]. cbn in H. discriminate.
Qed.

(* ------------------------------------------------------------------ *)
(** ** Failures of the gateway *)

(** C6: a failure of the gateway client is not handled anywhere.  When
    [execute] is rejected, the invocation ends there: the command was issued
    once, the rejection reaches the runtime unhandled, the progress status
    stays, nothing is probed and nothing is sent.  When a status probe is
    rejected after [n] pending answers, the loop stops at that probe: the
    tracker's promise never settles, the rejection reaches the runtime
    unhandled, there are [n + 1] probes and no more however long one waits,
    no 'done' status and no forward. *)
Theorem gateway_failure_is_not_recovered :
  forall env fuel node msg w i cmd,
    generateInstructionsFromPayload (payload msg) = Some i ->
    wire_command (payload msg) i = inr cmd ->
    (forall r,
       execute env (device node) cmd = Rejects r ->
       on_input env fuel node msg w
       = (Aborted,
          {| now := now w;
             probes := probes w;
             log := log w ++ [progress_status i;
                              EvExecute (device node) cmd;
                              EvUnhandledRejection r] |}))
    /\ (forall resp es n r,
          execute env (device node) cmd = Resolves resp ->
          expectedState i = Some es ->
          pending_for env (execId resp) (probes w) n ->
          getStatusForExecutionId env (probes w + n) (execId resp)
          = Rejects r ->
          (n < fuel)%nat ->
          fst (continueWhenCompleted env fuel (execId resp)
                 (started node i cmd w)) = NeverSettles
          /\ exists w',
               on_input env fuel node msg w = (Aborted, w')
               /\ probes w' = (probes w + S n)%nat
               /\ log w' = log w
                             ++ [progress_status i;
                                 EvExecute (device node) cmd]
                             ++ rounds (execId resp) (S n)
                             ++ [EvUnhandledRejection r]).
Proof.
  intros env fuel node msg w i cmd Hi Hc. split.
  - intros r Ex. rewrite (on_input_known _ _ _ _ _ _ _ Hi Hc).
    rewrite (chain_rejected _ _ _ _ _ _ _ _ Ex).
    unfold started, emit. cbn [now probes log].
    now rewrite <- !app_assoc.
  - intros resp es n r Ex Es Hp Hn Hlt.
    rewrite <- (started_probes node i cmd w) in Hp, Hn.
    pose proof (tracker_aborts _ _ _ _ _ _ Hp Hn Hlt) as Hrun.
    split; [now rewrite Hrun|].
    rewrite (on_input_known _ _ _ _ _ _ _ Hi Hc).
    rewrite (chain_polled _ _ _ _ _ _ _ _ _ Ex Es), Hrun.
    eexists. split; [reflexivity|].
    unfold emit. cbn [probes log].
    rewrite after_rounds_probes, after_rounds_log, started_log, started_probes.
    split; [reflexivity|]. now rewrite <- !app_assoc.
Qed.

Lemma gateway_failure_is_not_recovered_witness :
  (exists w',
     on_input Sample.env_execute_fails 9 Sample.node Sample.open_msg
       Sample.w0 = (Aborted, w')
     /\ log w' = [EvStatus "yellow" "dot" "Opening...";
                  EvExecute (device Sample.node)
                    {| name := "open"; cmd_parameters := [] |};
                  EvUnhandledRejection "401 Unauthorized"])
  /\ (exists w',
        on_input Sample.env_probe_fails 9 Sample.node Sample.wink_msg
          Sample.w0 = (Aborted, w')
        /\ probes w' = 2%nat
        /\ log w' = [EvStatus "yellow" "dot" "Winking 2 time(s)";
                     EvExecute (device Sample.node)
                       {| name := "wink"; cmd_parameters := [Int 2] |};
                     EvSetTimeout 2500; EvGetStatus "exec-1";
                     EvSetTimeout 2500; EvGetStatus "exec-1";
                     EvUnhandledRejection "ECONNRESET"]).
Proof.
  split.
  - eexists. split.
    + apply (proj1 (gateway_failure_is_not_recovered Sample.env_execute_fails
                      9 Sample.node Sample.open_msg Sample.w0 _ _
                      eq_refl eq_refl) "401 Unauthorized").
      reflexivity.
    + reflexivity.
  - destruct (proj2 (gateway_failure_is_not_recovered Sample.env_probe_fails
                       9 Sample.node Sample.wink_msg Sample.w0 _ _
                       eq_refl eq_refl)
                {| execId := "exec-1" |}
                {| es_open := None; es_position := None;
                   es_orientation := None; es_repetitions := Some (Int 2) |}
                1%nat "ECONNRESET")
      as [_ [w' [Hrun [Hp Hl]]]].
    + reflexivity.
    + reflexivity.
    + intros k Hk. exists Sample.running.
      destruct k as [|k]; [reflexivity|lia].
    + reflexivity.
    + lia.
    + exists w'. split; [exact Hrun|]. split; [exact Hp|exact Hl].
Defined.

(* ------------------------------------------------------------------ *)
(** ** More on the resolver *)

Lemma resolver_stop_iff p i :
  generateInstructionsFromPayload p = Some i ->
  (command i = STOP <-> action p = "stop").
Proof.
  intros H. by_action; inversion H; subst; cbn [command];
    split; intros; congruence.
Qed.

(** X1: the resolver returns an instruction exactly for the eight actions of
    its [switch], compared as they are written; for any other action text
    it returns null. *)
Theorem resolver_answers_exactly_known :
  forall p : ITahomaControlPayload,
    (exists i, generateInstructionsFromPayload p = Some i)
    <-> In (action p) known_actions.
Proof.
  intros p. split.
  - intros [i Hi]. now apply resolver_answers_known with (i := i).
  - apply resolver_known.
Qed.

(** X2: ['customRotation'] and ['customOrientation'] are two names of one
    action: payloads with the same orientation text get the same
    instruction under either name. *)
Theorem rotation_has_two_names :
  forall p q : ITahomaControlPayload,
    action p = "customRotation" ->
    action q = "customOrientation" ->
    orientation p = orientation q ->
    generateInstructionsFromPayload p = generateInstructionsFromPayload q
    /\ exists i,
         generateInstructionsFromPayload p = Some i
         /\ command i = ROTATION.
Proof.
  intros p q Hp Hq Ho. unfold generateInstructionsFromPayload.
  rewrite Hp, Hq, Ho. cbn. split; [reflexivity|].
  eexists. split; reflexivity.
Qed.

Lemma rotation_has_two_names_witness :
  generateInstructionsFromPayload
    (Sample.mk_payload "customRotation" "10" "45" "1" false)
  = generateInstructionsFromPayload
      (Sample.mk_payload "customOrientation" "90" "45" "7" true).
Proof.
  apply (proj1 (rotation_has_two_names
                  (Sample.mk_payload "customRotation" "10" "45" "1" false)
                  (Sample.mk_payload "customOrientation" "90" "45" "7" true)
                  eq_refl eq_refl eq_refl)).
Defined.

(** X3: each branch of the resolver reads only its own text fields.  Two
    payloads with the same action that agree on the position text (for
    ['customPosition'] and ['customClosureAndOrientation']), on the
    orientation text (for the rotation actions and
    ['customClosureAndOrientation']) and on the repetitions text (for
    ['wink']) get the same instruction; [lowspeed] and the other fields are
    never read. *)
Theorem resolver_reads_only_its_fields :
  forall p q : ITahomaControlPayload,
    same_read_fields p q ->
    generateInstructionsFromPayload p = generateInstructionsFromPayload q.
Proof.
  intros p q [Ha [Hpos [Hori Hrep]]].
  unfold generateInstructionsFromPayload. rewrite <- Ha.
  repeat match goal with
         | |- context [String.eqb ?a ?b] => destruct (String.eqb_spec a b)
         end;
    cbn [orb];
    try rewrite <- Hpos by tauto;
    try rewrite <- Hori by tauto;
    try rewrite <- Hrep by tauto;
    reflexivity.
Qed.

Lemma resolver_reads_only_its_fields_witness :
  generateInstructionsFromPayload
    (Sample.mk_payload "customPosition" "30" "1" "2" false)
  = generateInstructionsFromPayload
      (Sample.mk_payload "customPosition" "30" "80" "9" true).
Proof.
  apply (resolver_reads_only_its_fields
           (Sample.mk_payload "customPosition" "30" "1" "2" false)
           (Sample.mk_payload "customPosition" "30" "80" "9" true)).
  unfold same_read_fields. cbn.
  repeat split; intros; intuition discriminate.
Defined.

(** X4: the parameters of an instruction and its expected state never
    disagree.  When the resolver gives parameters, the instruction has an
    expected state and the parameters are the numbers of that state, in the
    order position, orientation, repetitions; it gives no parameters exactly
    for the commands OPEN, CLOSE and STOP. *)
Theorem parameters_mirror_expected_state :
  forall p i,
    generateInstructionsFromPayload p = Some i ->
    (forall ps,
       parameters i = Some ps ->
       exists es, expectedState i = Some es /\ ps = numbers_of_state es)
    /\ (parameters i = None
        <-> command i = OPEN \/ command i = CLOSE \/ command i = STOP).
Proof.
  intros p i H.
  by_action; inversion H; subst; cbn [parameters expectedState command];
    (split;
     [ intros ps Hps; try discriminate; injection Hps as <-;
       eexists; split; reflexivity
     | split; intros; try discriminate; try tauto;
       intuition discriminate ]).
Qed.

Lemma parameters_mirror_expected_state_witness :
  exists es,
    Some {| es_open := None; es_position := Some (Int 20);
            es_orientation := Some (Int 70); es_repetitions := None |}
    = Some es
    /\ [Int 20; Int 70] = numbers_of_state es.
Proof.
  apply (proj1 (parameters_mirror_expected_state
                  (Sample.mk_payload "customClosureAndOrientation"
                     "20" "70" "" false) _ eq_refl)
           [Int 20; Int 70]).
  reflexivity.
Defined.

(* ------------------------------------------------------------------ *)
(** ** More on the command that goes out *)

(** X5: under [lowspeed] only the position survives.  For every action but
    ['stop'] the command sent is ['position_low_speed'] with one parameter:
    0 for ['open'], 100 for ['close'], the parsed position text (0 when it
    parses to 0 or to [NaN]) for ['customPosition'] and
    ['customClosureAndOrientation'], and 0 for the rotation actions and for
    ['wink'], whose orientation and repetitions are not sent at all. *)
Theorem lowspeed_sends_only_a_position :
  forall p i,
    lowspeed p = true ->
    generateInstructionsFromPayload p = Some i ->
    action p <> "stop" ->
    exists t,
      wire_command p i
      = inr {| name := "position_low_speed"; cmd_parameters := [t] |}
      /\ (action p = "open" -> t = Int 0)
      /\ (action p = "close" -> t = Int 100)
      /\ (action p = "customPosition"
          \/ action p = "customClosureAndOrientation" ->
          t = or_default (Some (parseInt (position p))) (Int 0))
      /\ (action p = "customRotation" \/ action p = "customOrientation"
          \/ action p = "wink" ->
          t = Int 0).
Proof.
  intros p i Hl Hi Hns.
  assert (Hc : command i <> STOP).
  { intros Hc. apply Hns. now apply (resolver_stop_iff p i Hi). }
  destruct (resolver_state p i Hi Hc) as [es Hes].
  rewrite (wire_command_lowspeed p i es Hl Hc Hes).
  eexists. split; [reflexivity|].
  by_action; inversion Hi; subst; cbn [expectedState] in Hes;
    try discriminate; injection Hes as <-; cbn [es_position];
    repeat split; intros; try reflexivity; intuition congruence.
Qed.

Lemma lowspeed_sends_only_a_position_witness :
  exists t,
    wire_command (Sample.mk_payload "wink" "" "" "3" true)
      {| command := WINK;
         parameters := Some [Int 3];
         expectedState :=
           Some {| es_open := None; es_position := None;
                   es_orientation := None; es_repetitions := Some (Int 3) |};
         labels := {| done := "Stopped";
                      progress := "Winking 3 time(s)" |} |}
    = inr {| name := "position_low_speed"; cmd_parameters := [t] |}
    /\ t = Int 0.
Proof.
  destruct (lowspeed_sends_only_a_position
              (Sample.mk_payload "wink" "" "" "3" true) _ eq_refl eq_refl)
    as [t [Hw [_ [_ [_ Hz]]]]].
  - discriminate.
  - exists t. split; [exact Hw|]. apply Hz. right. right. reflexivity.
Defined.

(** X6: a stop request always goes out as a stop.  Whatever the other
    fields of the payload are, [lowspeed] included, the action ['stop']
    sends the command ['stop'] with no parameters, and no other action sends
    a command of that name. *)
Theorem stop_goes_out_as_stop :
  forall p i cmd,
    generateInstructionsFromPayload p = Some i ->
    wire_command p i = inr cmd ->
    (name cmd = "stop" <-> action p = "stop")
    /\ (action p = "stop" -> cmd = stop_command).
Proof.
  intros p i cmd Hi Hw.
  pose proof (resolver_stop_iff p i Hi) as Hstop.
  assert (Hcase : action p = "stop" -> cmd = stop_command).
  { intros Ha. apply Hstop in Ha.
    rewrite (wire_command_stop p i Ha) in Hw. injection Hw as <-.
    unfold generateInstructionsFromPayload in Hi.
    unfold base_command. rewrite Ha.
    by_action; inversion Hi; subst; cbn in Ha; try discriminate.
    reflexivity. }
  split; [|exact Hcase]. split.
  - intros Hn. apply Hstop.
    unfold wire_command in Hw.
    destruct (lowspeed p && negb (command_value (command i) =? "stop")%string)
      eqn:E.
    + destruct (expectedState i); [|discriminate].
      injection Hw as <-. discriminate.
    + injection Hw as <-. cbn [name] in Hn.
      apply command_value_stop. now rewrite Hn.
  - intros Ha. now rewrite (Hcase Ha).
Qed.

Lemma stop_goes_out_as_stop_witness :
  wire_command (Sample.mk_payload "stop" "55" "10" "3" true)
    {| command := STOP;
       parameters := None;
       expectedState := None;
       labels := {| done := "Stopped"; progress := "Stopping..." |} |}
  = inr stop_command.
Proof.
  destruct (wire_command_defined
              (Sample.mk_payload "stop" "55" "10" "3" true) _ eq_refl)
    as [cmd Hw].
  rewrite Hw. f_equal.
  apply (proj2 (stop_goes_out_as_stop
                  (Sample.mk_payload "stop" "55" "10" "3" true) _ cmd
                  eq_refl Hw)).
  reflexivity.
Defined.

(* ------------------------------------------------------------------ *)
(** ** More on the tracker *)

Lemma in_rounds_probe id id' k :
  In (EvGetStatus id') (rounds id k) -> id' = id.
Proof.
  induction k as [|k IH]; cbn [rounds round app In]; [tauto|].
  intros [H|[H|H]]; [discriminate|congruence|auto].
Qed.

(** X7: whatever the gateway answers, a run of the tracker observed for
    [fuel] rounds made some [k <= fuel] rounds, each a timer of 2500 ms
    followed by one probe for the given execution id, and at least
    [k * 2500] ms went by: the gateway is never probed more often than once
    per delay.  The run is resolved, cut short by a failed probe (after at
    least one round in both cases) or still polling after all [fuel] rounds;
    the tracker's promise is never rejected. *)
Theorem tracker_rounds :
  forall env fuel id w,
  exists k tail,
    (k <= fuel)%nat
    /\ probes (snd (continueWhenCompleted env fuel id w)) = (probes w + k)%nat
    /\ log (snd (continueWhenCompleted env fuel id w))
       = log w ++ rounds id k ++ tail
    /\ now w + Z.of_nat k * STATE_VALIDATOR_POLLING_DELAY
       <= now (snd (continueWhenCompleted env fuel id w))
    /\ (forall r,
          fst (continueWhenCompleted env fuel id w) <> Rejected r)
    /\ ((fst (continueWhenCompleted env fuel id w) = Fulfilled tt
         /\ tail = [] /\ (1 <= k)%nat)
        \/ (exists r,
              fst (continueWhenCompleted env fuel id w) = NeverSettles
              /\ tail = [EvUnhandledRejection r] /\ (1 <= k)%nat)
        \/ (fst (continueWhenCompleted env fuel id w) = StillPolling
            /\ tail = [] /\ k = fuel)).
Proof.
  intros env fuel id w.
  destruct (tracker_cases env id fuel w) as [n Hlt Hp Ha|n r Hlt Hp Ha|Hp];
    cbn [fst snd].
  - exists (S n), []. rewrite app_nil_r.
    split; [lia|]. split; [apply after_rounds_probes|].
    split; [apply after_rounds_log|]. split; [apply after_rounds_now|].
    split; [discriminate|]. left. repeat split. lia.
  - exists (S n), [EvUnhandledRejection r]. unfold emit. cbn [probes log now].
    split; [lia|]. split; [apply after_rounds_probes|].
    split; [rewrite after_rounds_log; now rewrite <- app_assoc|].
    split; [apply after_rounds_now|].
    split; [discriminate|]. right. left. exists r. repeat split. lia.
  - exists fuel, []. rewrite app_nil_r.
    split; [lia|]. split; [apply after_rounds_probes|].
    split; [apply after_rounds_log|]. split; [apply after_rounds_now|].
    split; [discriminate|]. right. right. repeat split.
Qed.

(* ------------------------------------------------------------------ *)
(** ** More on the handler *)


(** X9: an invocation issues its command once.  For a known action the
    events begin with the progress status and the [execute] call on the
    node's device; nothing after them is another [execute], whatever the
    gateway answers, and every status probe after them asks for the
    execution id that this [execute] call returned. *)
Theorem one_command_per_invocation :
  forall env fuel node msg w i cmd,
    generateInstructionsFromPayload (payload msg) = Some i ->
    wire_command (payload msg) i = inr cmd ->
    exists rest,
      log (snd (on_input env fuel node msg w))
      = log w ++ progress_status i :: EvExecute (device node) cmd :: rest
      /\ count is_execute rest = O
      /\ count is_probe rest
         = (probes (snd (on_input env fuel node msg w)) - probes w)%nat
      /\ forall id,
           In (EvGetStatus id) rest ->
           exists resp,
             execute env (device node) cmd = Resolves resp
             /\ id = execId resp.
Proof.
  intros env fuel node msg w i cmd Hi Hc.
  rewrite (on_input_known _ _ _ _ _ _ _ Hi Hc).
  destruct (execute env (device node) cmd) as [resp|r] eqn:Ex.
  - destruct (expectedState i) as [es|] eqn:Es.
    + rewrite (chain_polled _ _ _ _ _ _ _ _ _ Ex Es).
      destruct (tracker_cases env (execId resp) fuel (started node i cmd w))
        as [n Hlt Hp Ha|n r Hlt Hp Ha|Hp]; cbn [snd]; unfold emit;
        cbn [log probes];
        rewrite after_rounds_log, after_rounds_probes, started_log,
          started_probes, <- ?app_assoc; cbn [app].
      * exists (rounds (execId resp) (S n)
                  ++ [EvStatus "green" "dot" (done (labels i)); EvSend msg]).
        split; [reflexivity|].
        rewrite !count_app, count_rounds_probe,
          (count_rounds_other is_execute) by reflexivity.
        split; [reflexivity|]. split; [cbn; lia|].
        intros id Hin. exists resp. split; [reflexivity|].
        apply in_app_or in Hin. destruct Hin as [Hin|Hin].
        -- now apply in_rounds_probe in Hin.
        -- cbn in Hin. intuition discriminate.
      * exists (rounds (execId resp) (S n) ++ [EvUnhandledRejection r]).
        split; [reflexivity|].
        rewrite !count_app, count_rounds_probe,
          (count_rounds_other is_execute) by reflexivity.
        split; [reflexivity|]. split; [cbn; lia|].
        intros id Hin. exists resp. split; [reflexivity|].
        apply in_app_or in Hin. destruct Hin as [Hin|Hin].
        -- now apply in_rounds_probe in Hin.
        -- cbn in Hin. intuition discriminate.
      * exists (rounds (execId resp) fuel).
        split; [reflexivity|].
        rewrite count_rounds_probe,
          (count_rounds_other is_execute) by reflexivity.
        split; [reflexivity|]. split; [lia|].
        intros id Hin. exists resp. split; [reflexivity|].
        now apply in_rounds_probe in Hin.
    + rewrite (chain_unpolled _ _ _ _ _ _ _ _ Ex Es). cbn [snd].
      unfold emit. cbn [log probes].
      rewrite started_log, started_probes, <- !app_assoc. cbn [app].
      eexists. split; [reflexivity|].
      split; [reflexivity|]. split; [cbn; lia|].
      intros id Hin. cbn in Hin. intuition discriminate.
  - rewrite (chain_rejected _ _ _ _ _ _ _ _ Ex). cbn [snd].
    unfold emit. cbn [log probes].
    rewrite started_log, started_probes, <- !app_assoc. cbn [app].
    eexists. split; [reflexivity|].
    split; [reflexivity|]. split; [cbn; lia|].
    intros id Hin. cbn in Hin. intuition discriminate.
Qed.

Lemma one_command_per_invocation_witness :
  exists rest,
    log (snd (on_input Sample.env_two_then_absent 5 Sample.node
                Sample.wink_msg Sample.w0))
    = EvStatus "yellow" "dot" "Winking 2 time(s)"
      :: EvExecute (device Sample.node)
           {| name := "wink"; cmd_parameters := [Int 2] |}
      :: rest
    /\ count is_execute rest = O
    /\ count is_probe rest = 3%nat.
Proof.
  destruct (one_command_per_invocation Sample.env_two_then_absent 5
              Sample.node Sample.wink_msg Sample.w0 _ _ eq_refl eq_refl)
    as [rest [Hlog [Hex [Hpr _]]]].
  exists rest. split; [exact Hlog|]. split; [exact Hex|exact Hpr].
Defined.

(** X10: the 'done' status is shown only when the gateway has said so.
    When an invocation whose instruction has an expected state completes,
    the gateway accepted the command, reported the execution as pending at
    [n] probes and as gone at the next one, which was the last probe made;
    and at least one delay of 2500 ms went by, even when the execution was
    gone at the first probe. *)
Theorem done_means_absent :
  forall env fuel node msg w i cmd es,
    generateInstructionsFromPayload (payload msg) = Some i ->
    wire_command (payload msg) i = inr cmd ->
    expectedState i = Some es ->
    fst (on_input env fuel node msg w) = Completed ->
    exists resp n,
      execute env (device node) cmd = Resolves resp
      /\ (n < fuel)%nat
      /\ pending_for env (execId resp) (probes w) n
      /\ getStatusForExecutionId env (probes w + n) (execId resp)
         = Resolves None
      /\ probes (snd (on_input env fuel node msg w)) = (probes w + S n)%nat
      /\ now w + STATE_VALIDATOR_POLLING_DELAY
         <= now (snd (on_input env fuel node msg w)).
Proof.
  intros env fuel node msg w i cmd es Hi Hc Es.
  rewrite (on_input_known _ _ _ _ _ _ _ Hi Hc).
  destruct (execute env (device node) cmd) as [resp|r] eqn:Ex.
  - rewrite (chain_polled _ _ _ _ _ _ _ _ _ Ex Es).
    destruct (tracker_cases env (execId resp) fuel (started node i cmd w))
      as [n Hlt Hp Ha|n r Hlt Hp Ha|Hp]; cbn [fst snd]; try discriminate.
    intros _. exists resp, n.
    rewrite started_probes in Hp, Ha.
    split; [reflexivity|]. split; [exact Hlt|].
    split; [exact Hp|]. split; [exact Ha|].
    unfold emit. cbn [probes now].
    rewrite after_rounds_probes, started_probes. split; [reflexivity|].
    pose proof (after_rounds_now env (execId resp) (S n)
                  (started node i cmd w)) as Ht.
    change (now (started node i cmd w)) with (now w) in Ht.
    unfold STATE_VALIDATOR_POLLING_DELAY in *. lia.
  - rewrite (chain_rejected _ _ _ _ _ _ _ _ Ex). cbn [fst]. discriminate.
Qed.

Lemma done_means_absent_witness :
  exists resp n,
    execute Sample.env_two_then_absent (device Sample.node)
      {| name := "wink"; cmd_parameters := [Int 2] |} = Resolves resp
    /\ (n < 5)%nat
    /\ getStatusForExecutionId Sample.env_two_then_absent n (execId resp)
       = Resolves None
    /\ probes (snd (on_input Sample.env_two_then_absent 5 Sample.node
                      Sample.wink_msg Sample.w0)) = S n.
Proof.
  destruct (done_means_absent Sample.env_two_then_absent 5 Sample.node
              Sample.wink_msg Sample.w0 _ _ _ eq_refl eq_refl eq_refl
              eq_refl)
    as [resp [n [Hex [Hlt [_ [Hn [Hp _]]]]]]].
  exists resp, n. split; [exact Hex|]. split; [exact Hlt|].
  split; [exact Hn|exact Hp].
Defined.

(** X11: an invocation that is still polling has been told nothing else.
    When [fuel] rounds have been observed and the invocation is not over,
    the gateway accepted the command and reported the execution as pending
    at every one of the [fuel] probes made; no probe was skipped and none
    was repeated. *)
Theorem still_polling_means_pending :
  forall env fuel node msg w i cmd,
    generateInstructionsFromPayload (payload msg) = Some i ->
    wire_command (payload msg) i = inr cmd ->
    fst (on_input env fuel node msg w) = Unfinished ->
    exists resp,
      execute env (device node) cmd = Resolves resp
      /\ expectedState i <> None
      /\ pending_for env (execId resp) (probes w) fuel
      /\ probes (snd (on_input env fuel node msg w)) = (probes w + fuel)%nat
      /\ log (snd (on_input env fuel node msg w))
         = log w ++ [progress_status i; EvExecute (device node) cmd]
             ++ rounds (execId resp) fuel.
Proof.
  intros env fuel node msg w i cmd Hi Hc.
  rewrite (on_input_known _ _ _ _ _ _ _ Hi Hc).
  destruct (execute env (device node) cmd) as [resp|r] eqn:Ex.
  - destruct (expectedState i) as [es|] eqn:Es.
    + rewrite (chain_polled _ _ _ _ _ _ _ _ _ Ex Es).
      destruct (tracker_cases env (execId resp) fuel (started node i cmd w))
        as [n Hlt Hp Ha|n r Hlt Hp Ha|Hp]; cbn [fst snd]; try discriminate.
      intros _. exists resp. rewrite started_probes in Hp.
      split; [reflexivity|]. split; [discriminate|]. split; [exact Hp|].
      rewrite after_rounds_probes, after_rounds_log, started_log,
        started_probes.
      split; [reflexivity|]. now rewrite <- app_assoc.
    + rewrite (chain_unpolled _ _ _ _ _ _ _ _ Ex Es). cbn [fst]. discriminate.
  - rewrite (chain_rejected _ _ _ _ _ _ _ _ Ex). cbn [fst]. discriminate.
Qed.

Lemma still_polling_means_pending_witness :
  exists resp,
    execute Sample.env_two_then_absent (device Sample.node)
      {| name := "wink"; cmd_parameters := [Int 2] |} = Resolves resp
    /\ probes (snd (on_input Sample.env_two_then_absent 2 Sample.node
                      Sample.wink_msg Sample.w0)) = 2%nat.
Proof.
  destruct (still_polling_means_pending Sample.env_two_then_absent 2
              Sample.node Sample.wink_msg Sample.w0 _ _ eq_refl eq_refl
              eq_refl)
    as [resp [Hex [_ [_ [Hp _]]]]].
  exists resp. split; [exact Hex|exact Hp].
Defined.

(** X12: the handler gives up only when the gateway fails.  An invocation
    ends aborted only if [execute] was rejected, or if [execute] was
    accepted, the instruction has an expected state and a status probe was
    rejected after [n] pending answers; in both cases the last event is the
    unhandled rejection carrying the gateway's reason. *)
Theorem aborted_means_gateway_failure :
  forall env fuel node msg w i cmd,
    generateInstructionsFromPayload (payload msg) = Some i ->
    wire_command (payload msg) i = inr cmd ->
    fst (on_input env fuel node msg w) = Aborted ->
    exists r before,
      log (snd (on_input env fuel node msg w))
      = before ++ [EvUnhandledRejection r]
      /\ (execute env (device node) cmd = Rejects r
          \/ exists resp n,
               execute env (device node) cmd = Resolves resp
               /\ expectedState i <> None
               /\ (n < fuel)%nat
               /\ pending_for env (execId resp) (probes w) n
               /\ getStatusForExecutionId env (probes w + n) (execId resp)
                  = Rejects r).
Proof.
  intros env fuel node msg w i cmd Hi Hc.
  rewrite (on_input_known _ _ _ _ _ _ _ Hi Hc).
  destruct (execute env (device node) cmd) as [resp|r] eqn:Ex.
  - destruct (expectedState i) as [es|] eqn:Es.
    + rewrite (chain_polled _ _ _ _ _ _ _ _ _ Ex Es).
      destruct (tracker_cases env (execId resp) fuel (started node i cmd w))
        as [n Hlt Hp Ha|n r Hlt Hp Ha|Hp]; cbn [fst snd]; try discriminate.
      intros _. rewrite started_probes in Hp, Ha.
      exists r. eexists. split; [reflexivity|].
      right. exists resp, n.
      split; [reflexivity|]. split; [discriminate|]. auto.
    + rewrite (chain_unpolled _ _ _ _ _ _ _ _ Ex Es). cbn [fst]. discriminate.
  - rewrite (chain_rejected _ _ _ _ _ _ _ _ Ex). cbn [fst snd]. intros _.
    exists r. eexists. split; [reflexivity|]. now left.
Qed.

Lemma aborted_means_gateway_failure_witness :
  exists r before,
    log (snd (on_input Sample.env_probe_fails 9 Sample.node Sample.wink_msg
                Sample.w0))
    = before ++ [EvUnhandledRejection r].
Proof.
  destruct (aborted_means_gateway_failure Sample.env_probe_fails 9
              Sample.node Sample.wink_msg Sample.w0 _ _ eq_refl eq_refl
              eq_refl)
    as [r [before [Hlog _]]].
  exists r, before. exact Hlog.
Defined.
